(** * PyTransit: Legendre baseline and passband filters

    A shallow embedding of

    - [src/lpf/baselines/legendrebaseline.py] (class [LegendreBaseline]:
      [__init__], [_init_p_baseline], [baseline]) and
    - [pytransit/contamination/filter.py] (classes [Filter], [ClearFilter],
      [BoxcarFilter], [TabulatedFilter]).

    The program is written against numpy.  The numpy operations it calls
    ([mean], [ptp], [concatenate], [legvander], [atleast_2d], [zeros], basic
    slicing, [@], [linspace]) are modelled on Python lists; a Python exception
    is the [Raise] case of [result].

    Numbers.  The code is written once, over an interface [Scalar] of the
    arithmetic numpy performs on float64 values.  Two instances are given:

    - [float64]: IEEE 754 binary64 as specified by the standard library's
      [SpecFloat] (round to nearest even, signed zeros, infinities, NaN).
      It is executable and is what the program computes with; all concrete
      runs and all facts that do not depend on rounding are stated on it or
      on the generic interface.
    - [exact]: rational arithmetic without rounding, with one extra value
      [NaN] for the results numpy reports as non-finite (x/0).  The algebraic
      facts (linearity, bounds of the normalised times) are stated on it;
      on float64 they are subject to rounding. *)

From Stdlib Require Import String Ascii DecimalString.
From Stdlib Require Import ZArith List Bool Lia.
From Stdlib Require Import QArith Qcanon Lqa.
From Stdlib Require Import Floats.SpecFloat.
Import ListNotations.

Local Close Scope Q_scope.
Local Open Scope Z_scope.

(* [length] is the length of a list throughout. *)
Local Abbreviation length := Datatypes.length.

Set Implicit Arguments.

(** ** Python exceptions and fallible computations *)

Inductive exn : Type :=
| AttributeError   (* attribute missing, or attribute access on None *)
| TypeError        (* e.g. iterating over None *)
| ValueError       (* numpy: shape mismatch, empty reduction, bad degree *)
| IndexError       (* list index out of range *)
| AssertionError.  (* a failed assert statement *)

Inductive result (A : Type) : Type :=
| Ok (a : A)
| Raise (e : exn).

Arguments Ok {A} a.
Arguments Raise {A} e.

Definition bind {A B} (r : result A) (k : A -> result B) : result B :=
  match r with
  | Ok a => k a
  | Raise e => Raise e
  end.

Notation "x <- c ;; k" := (bind c (fun x => k))
  (at level 61, c at next level, right associativity).

(** [obj.attr] where the attribute may be unset (or None and then
    dereferenced): Python raises AttributeError. *)
Definition attr {A} (o : option A) : result A :=
  match o with
  | Some a => Ok a
  | None => Raise AttributeError
  end.

Fixpoint mapM {A B} (f : A -> result B) (l : list A) : result (list B) :=
  match l with
  | [] => Ok []
  | a :: l' => b <- f a ;; bs <- mapM f l' ;; Ok (b :: bs)
  end.

(** ** Python slices *)

(** [slice(start, stop)] with integer bounds (step 1). *)
Record pyslice : Type := Slice { sl_start : Z; sl_stop : Z }.

(** Python's normalisation of a slice bound against a sequence of length
    [n]: negative bounds count from the end, then the bound is clipped to
    [0..n].  Slicing never raises. *)
Definition clamp_index (i : Z) (n : nat) : nat :=
  let n' := Z.of_nat n in
  Z.to_nat (if i <? 0 then Z.max (i + n') 0 else Z.min i n').

(** [l[s]] *)
Definition getslice {A} (l : list A) (s : pyslice) : list A :=
  let a := clamp_index (sl_start s) (length l) in
  let b := clamp_index (sl_stop s) (length l) in
  firstn (b - a) (skipn a l).

(** [range(n)] as a list of Python ints. *)
Definition py_range (n : Z) : list Z := map Z.of_nat (seq 0 (Z.to_nat n)).

(** [enumerate(l)] *)
Definition enumerate {A} (l : list A) : list (Z * A) :=
  combine (py_range (Z.of_nat (length l))) l.

(** [str(n)] for a Python int. *)
Definition str_of_Z (z : Z) : string := NilZero.string_of_int (Z.to_int z).

(** ** The arithmetic interface *)

Class Scalar (F : Type) : Type := {
  f_of_Z    : Z -> F;          (* conversion of a Python int *)
  f_add     : F -> F -> F;
  f_sub     : F -> F -> F;
  f_mul     : F -> F -> F;
  f_div     : F -> F -> F;     (* numpy true_divide: never raises *)
  f_maximum : F -> F -> F;     (* numpy.maximum on two scalars *)
  f_minimum : F -> F -> F;     (* numpy.minimum on two scalars *)
  f_ltb     : F -> F -> bool;  (* < *)
  f_leb     : F -> F -> bool   (* <= *)
}.

(** ** numpy on lists *)

Section Numpy.
Context {F : Type} {SF : Scalar F}.

Definition f_zero : F := f_of_Z 0.
Definition f_one : F := f_of_Z 1.

(** A decimal literal [n/d] of the source.  On float64 both [n] and [d]
    are exact, so the quotient is rounded once: to the float nearest to
    the literal, which is how Python reads it. *)
Definition f_lit (n d : Z) : F := f_div (f_of_Z n) (f_of_Z d).

(** [a == b] *)
Definition f_eqb (a b : F) : bool := f_leb a b && f_leb b a.

(** 2-D arrays with their shape: a matrix with no rows still has a column
    count, which [@] checks. *)
Record matrix : Type := Matrix { m_rows : list (list F); m_ncols : nat }.

(** What [baseline] may be handed: a scalar, a vector or a 2-D batch
    (one list per row). *)
Inductive ndarray : Type :=
| Arr0 (x : F)
| Arr1 (v : list F)
| Arr2 (m : list (list F)).

(** [a.sum()], accumulated from left to right starting at 0 (numpy does so
    below eight elements and sums longer arrays pairwise). *)
Definition np_sum (a : list F) : F := fold_left f_add a f_zero.

(** [a.mean()]: the sum divided by the number of elements; on an empty
    array this is 0/0 (numpy warns and returns NaN). *)
Definition np_mean (a : list F) : F :=
  f_div (np_sum a) (f_of_Z (Z.of_nat (length a))).

(** [a.max()] and [a.min()] raise ValueError on an empty array. *)
Definition np_max (a : list F) : result F :=
  match a with
  | [] => Raise ValueError
  | x :: r => Ok (fold_left f_maximum r x)
  end.

Definition np_min (a : list F) : result F :=
  match a with
  | [] => Raise ValueError
  | x :: r => Ok (fold_left f_minimum r x)
  end.

(** [a.ptp()] (numpy 1.x): maximum minus minimum. *)
Definition np_ptp (a : list F) : result F :=
  hi <- np_max a ;; lo <- np_min a ;; Ok (f_sub hi lo).

(** [concatenate(arrays)] raises ValueError when given no array. *)
Definition np_concatenate (arrays : list (list F)) : result (list F) :=
  match arrays with
  | [] => Raise ValueError
  | _ => Ok (concat arrays)
  end.

(** [zeros((b, t))] *)
Definition np_zeros (b t : nat) : list (list F) := repeat (repeat f_zero t) b.

(** [atleast_2d(a)] *)
Definition atleast_2d (a : ndarray) : list (list F) :=
  match a with
  | Arr0 x => [[x]]
  | Arr1 v => [v]
  | Arr2 m => m
  end.

(** *** numpy.polynomial.legendre.legvander

    numpy's code, for one abscissa [x] (numpy works on the whole array at
    once, column by column, and finally moves the degree axis last):
<<
    x = array(x) + 0.0
    v[0] = x*0 + 1
    if deg > 0:
        v[1] = x
        for i in range(2, deg + 1):
            v[i] = (v[i-1]*x*(2*i - 1) - v[i-2]*(i - 1))/i
>>
    [leg_rec x k i vm1 vm2] produces the [k] entries [v[i]], [v[i+1]], ...
    from [vm1 = v[i-1]] and [vm2 = v[i-2]]. *)
Fixpoint leg_rec (x : F) (k : nat) (i : Z) (vm1 vm2 : F) : list F :=
  match k with
  | O => []
  | S k' =>
      let vi := f_div (f_sub (f_mul (f_mul vm1 x) (f_of_Z (2 * i - 1)))
                             (f_mul vm2 (f_of_Z (i - 1))))
                      (f_of_Z i) in
      vi :: leg_rec x k' (i + 1) vi vm1
  end.

Definition legvander_row (deg : Z) (x0 : F) : list F :=
  let x := f_add x0 f_zero in
  let v0 := f_add (f_mul x f_zero) f_one in
  if deg >? 0 then v0 :: x :: leg_rec x (Z.to_nat (deg - 1)) 2 x v0
  else [v0].

Definition legvander (t : list F) (deg : Z) : result matrix :=
  if deg <? 0 then Raise ValueError
  else Ok (Matrix (map (legvander_row deg) t) (Z.to_nat (deg + 1))).

(** *** Matrix product and slice assignment *)

(** The inner product of a coefficient vector with one row of a basis
    matrix, accumulated from left to right starting at 0. *)
Definition dot (c row : list F) : F :=
  fold_left (fun acc cb => f_add acc (f_mul (fst cb) (snd cb)))
            (combine c row) f_zero.

(** [c @ m.T] for a 1-D [c] and a 2-D [m] of shape (t, k): numpy raises
    ValueError unless [len(c) = k]; the result has one entry per row of
    [m]. *)
Definition matmul_vT (c : list F) (m : matrix) : result (list F) :=
  if Nat.eqb (length c) (m_ncols m) then Ok (map (dot c) (m_rows m))
  else Raise ValueError.

(** [row[s] = v] for 1-D [row] and [v]: [v] must have the length of the
    selected range, or length 1 (it is then broadcast); otherwise numpy
    raises ValueError. *)
Definition setslice (row : list F) (s : pyslice) (v : list F)
  : result (list F) :=
  let a := clamp_index (sl_start s) (length row) in
  let b := clamp_index (sl_stop s) (length row) in
  let k := (b - a)%nat in
  if Nat.eqb (length v) k then
    Ok (firstn a row ++ v ++ skipn (a + k) row)
  else
    match v with
    | [x] => Ok (firstn a row ++ repeat x k ++ skipn (a + k) row)
    | _ => Raise ValueError
    end.

(** [linspace(start, stop, num)] (endpoint included), as numpy computes
    it.  [num] is None when the caller passes None. *)
Definition linspace (start stop : F) (num : option Z) : result (list F) :=
  match num with
  | None => Raise TypeError
  | Some n =>
      if n <? 0 then Raise ValueError
      else
        let div := f_of_Z (n - 1) in
        let delta := f_sub stop start in
        let y := map f_of_Z (py_range n) in
        let y :=
          if n - 1 >? 0 then
            let step := f_div delta div in
            if f_eqb step f_zero
            then map (fun v => f_mul (f_div v div) delta) y
            else map (fun v => f_mul v step) y
          else map (fun v => f_mul v delta) y in
        let y := map (fun v => f_add v start) y in
        Ok (if n >? 1 then removelast y ++ [stop] else y)
  end.

End Numpy.

Arguments matrix F : clear implicits.
Arguments ndarray F : clear implicits.

(** ** The parameter system

    [LParameter], [NormalPrior] and the parameter set [self.ps] belong to
    [pytransit.param], which the baseline module imports and which is not
    part of the sources at hand. *)

(** Modelled from the spec: a prior distribution (4.2), here
    [NormalPrior(mean, std)] as the source constructs it; the decimal
    literals of the source are kept as rationals. *)
Inductive prior : Type := NP (mean std : Q).

(** Modelled from the spec: a parameter declaration (4.2) with its unique
    id, human label, unit string, prior and inclusive bounds, as the source
    constructs it: [LParameter(name, description, unit, prior,
    bounds=(lo, hi))]. *)
Record LParameter : Type := {
  p_name : string;
  p_description : string;
  p_unit : string;
  p_prior : prior;
  p_bounds : Q * Q
}.

(** Modelled from the spec: the block handle (4.2), with its absolute start
    offset and its absolute index range. *)
Record ParameterBlock : Type := {
  blk_name : string;
  blk_start : Z;
  blk_slice : pyslice
}.

(** Modelled from the spec: the registry (4.2), a flat vector of parameter
    declarations and the blocks registered so far. *)
Record ParameterSet : Type := {
  ps_parameters : list LParameter;
  ps_blocks : list ParameterBlock
}.

(** Modelled from the spec: [ParameterSet.add_lightcurve_block] of
    [pytransit.param] is not part of the sources at hand.  The spec (4.2):
    blocks are appended contiguously to a single parameter vector, and the
    block handle exposes [.slice], the absolute index range of the block in
    the full vector, and [.start], its absolute start offset. *)
Definition add_lightcurve_block (name : string) (size_per_curve n_curves : Z)
    (declarations : list LParameter) (ps : ParameterSet) : ParameterSet :=
  let start := Z.of_nat (length (ps_parameters ps)) in
  let stop := start + Z.of_nat (length declarations) in
  {| ps_parameters := ps_parameters ps ++ declarations;
     ps_blocks := ps_blocks ps ++
       [ {| blk_name := name; blk_start := start;
            blk_slice := Slice start stop |} ] |}.

(** [blocks[-1]]: IndexError on an empty list. *)
Definition last_block (ps : ParameterSet) : result ParameterBlock :=
  match rev (ps_blocks ps) with
  | b :: _ => Ok b
  | [] => Raise IndexError
  end.

(** ** class LegendreBaseline *)

Section LegendreBaseline.
Context {F : Type} {SF : Scalar F}.

(** The attributes of the object.  [None] stands for an attribute that is
    None or has not been assigned yet.  [__init__] assigns the first six;
    [ofluxa] is assigned by the light-curve class this one is mixed into,
    the remaining ones by [_init_p_baseline]. *)
Record LegendreBaseline : Type := {
  nlegendre : Z;
  times : list (list F);
  timea : option (list F);
  lcslices : option (list pyslice);
  nlc : Z;
  ps : option ParameterSet;
  ofluxa : option (list F);
  mtimes : option (list (list F));
  windows : option F;
  legs : option (list (matrix F));
  _sl_bl : option pyslice;
  _start_bl : option Z
}.

(** [LegendreBaseline.__init__] *)
Definition __init__ (nlegendre : Z) : LegendreBaseline :=
  {| nlegendre := nlegendre; times := []; timea := None; lcslices := None;
     nlc := 0; ps := None; ofluxa := None; mtimes := None; windows := None;
     legs := None; _sl_bl := None; _start_bl := None |}.

(** The declarations of one light curve: the intercept followed by
    [nlegendre] coefficients. *)
Definition bl_declarations (nlegendre tn : Z) : list LParameter :=
  {| p_name := "bli_" ++ str_of_Z tn;
     p_description := "bl_intercept_" ++ str_of_Z tn;
     p_unit := "";
     p_prior := NP 1 (1 # 100);
     p_bounds := ((98 # 100)%Q, (102 # 100)%Q) |}
  :: map (fun ipoly =>
       {| p_name := "bls_" ++ str_of_Z tn ++ "_" ++ str_of_Z ipoly;
          p_description := "bl_c_" ++ str_of_Z tn ++ "_" ++ str_of_Z ipoly;
          p_unit := "";
          p_prior := NP 0 (1 # 1000);
          p_bounds := ((- 1 # 10)%Q, (1 # 10)%Q) |})
     (map (Z.add 1) (py_range nlegendre)).

(** The first three statements of [_init_p_baseline]. *)
Definition mean_centre (ts : list (list F)) : list (list F) :=
  map (fun t => let m := np_mean t in map (fun x => f_sub x m) t) ts.

Definition global_window (mts : list (list F)) : result F :=
  a <- np_concatenate mts ;; np_ptp a.

Definition normalise (window : F) (mts : list (list F)) : list (list F) :=
  map (fun t => map (fun x => f_div x window) t) mts.

(** [LegendreBaseline._init_p_baseline].  The object is returned with the
    attributes the method assigns; when a statement raises, the exception
    is returned instead. *)
Definition _init_p_baseline (self : LegendreBaseline)
  : result LegendreBaseline :=
  let mts := mean_centre (times self) in
  window <- global_window mts ;;
  let mts' := normalise window mts in
  lgs <- mapM (fun t => legvander t (nlegendre self)) mts' ;;
  ofl <- attr (ofluxa self) ;;
  let bls := flat_map (bl_declarations (nlegendre self))
                      (py_range (nlc self)) in
  ps0 <- attr (ps self) ;;
  let ps' := add_lightcurve_block "baseline" (nlegendre self + 1)
                                  (nlc self) bls ps0 in
  blk <- last_block ps' ;;
  Ok {| nlegendre := nlegendre self; times := times self;
        timea := timea self; lcslices := lcslices self; nlc := nlc self;
        ps := Some ps'; ofluxa := Some ofl;
        mtimes := Some mts'; windows := Some window; legs := Some lgs;
        _sl_bl := Some (blk_slice blk);
        _start_bl := Some (blk_start blk) |}.

(** The body of the inner loop of [baseline], for light curve [itr] with
    slice [sl]:
    [fbl[ipv, sl] = bl[itr*(n+1):(itr+1)*(n+1)] @ self.legs[itr].T] *)
Definition baseline_curve (self : LegendreBaseline) (bl : list F)
    (row : list F) (isl : Z * pyslice) : result (list F) :=
  let '(itr, sl) := isl in
  let n1 := nlegendre self + 1 in
  let c := getslice bl (Slice (itr * n1) ((itr + 1) * n1)) in
  lgs <- attr (legs self) ;;
  m <- match nth_error lgs (Z.to_nat itr) with
       | Some m => Ok m
       | None => Raise IndexError
       end ;;
  v <- matmul_vT c m ;;
  setslice row sl v.

Fixpoint foldM {A B} (f : B -> A -> result B) (l : list A) (b : B)
  : result B :=
  match l with
  | [] => Ok b
  | a :: l' => b' <- f b a ;; foldM f l' b'
  end.

(** The body of the outer loop, for parameter vector [pv]; [row] is the
    row [fbl[ipv]], which no other iteration touches. *)
Definition baseline_row (self : LegendreBaseline) (row : list F)
    (pv : list F) : result (list F) :=
  sl <- attr (_sl_bl self) ;;
  let bl := getslice pv sl in
  lcs <- match lcslices self with
         | Some l => Ok l
         | None => Raise TypeError
         end ;;
  foldM (baseline_curve self bl) (enumerate lcs) row.

(** [LegendreBaseline.baseline] *)
Definition baseline (self : LegendreBaseline) (pvp : ndarray F)
  : result (list (list F)) :=
  let pvp := atleast_2d pvp in
  ta <- attr (timea self) ;;
  let fbl := np_zeros (length pvp) (length ta) in
  mapM (fun rp => baseline_row self (fst rp) (snd rp)) (combine fbl pvp).

End LegendreBaseline.

Arguments LegendreBaseline F : clear implicits.

(** ** Initialisation by the host class *)

Section Setup.
Context {F : Type} {SF : Scalar F}.

(** Modelled from the spec: the light-curve slice map (3), the index range
    of every light curve in the concatenated time axis, starting at offset
    [off]. *)
Fixpoint lc_slices (off : Z) (ts : list (list F)) : list pyslice :=
  match ts with
  | [] => []
  | t :: ts' =>
      let stop := off + Z.of_nat (length t) in
      Slice off stop :: lc_slices stop ts'
  end.

(** Modelled from the spec: the attributes assigned by the light-curve
    class that [LegendreBaseline] is mixed into, which is not part of the
    sources at hand.  It stores the light curves ([times], the concatenated
    time axis [timea] and flux array [ofluxa], the per-curve index ranges
    [lcslices], the number of curves [nlc]) and the parameter registry. *)
Definition host_object (light_curve_times light_curve_fluxes : list (list F))
    (degree : Z) (parameter_registry : ParameterSet) : LegendreBaseline F :=
  let self := __init__ degree in
  {| nlegendre := nlegendre self;
     times := light_curve_times;
     timea := Some (concat light_curve_times);
     lcslices := Some (lc_slices 0 light_curve_times);
     nlc := Z.of_nat (length light_curve_times);
     ps := Some parameter_registry;
     ofluxa := Some (concat light_curve_fluxes);
     mtimes := mtimes self; windows := windows self; legs := legs self;
     _sl_bl := _sl_bl self; _start_bl := _start_bl self |}.

(** Modelled from the spec: [setup(light_curve_times, light_curve_fluxes,
    degree, parameter_registry)], the one-time initialisation of the spec's
    caller-facing API (6): the host class stores its attributes and runs
    [_init_p_baseline]. *)
Definition setup (light_curve_times light_curve_fluxes : list (list F))
    (degree : Z) (parameter_registry : ParameterSet)
  : result (LegendreBaseline F) :=
  _init_p_baseline
    (host_object light_curve_times light_curve_fluxes degree
                 parameter_registry).

End Setup.

(** ** float64: IEEE 754 binary64 *)

Module B64.

Definition prec : Z := 53.
Definition emax : Z := 1024.

Definition float64 : Type := spec_float.

(** The float nearest to an integer (exact below 2^53). *)
Definition of_Z (z : Z) : float64 := binary_normalize prec emax z 0 false.

Definition is_nan (x : float64) : bool :=
  match x with S754_nan => true | _ => false end.

Definition is_finite (x : float64) : bool :=
  match x with S754_zero _ | S754_finite _ _ _ => true | _ => false end.

(** numpy's scalar loops: [(a >= b || isnan(a)) ? a : b] and
    [(a <= b || isnan(a)) ? a : b]. *)
Definition maximum (a b : float64) : float64 :=
  if SFleb b a || is_nan a then a else b.

Definition minimum (a b : float64) : float64 :=
  if SFleb a b || is_nan a then a else b.

#[export] Instance scalar : Scalar float64 := {
  f_of_Z := of_Z;
  f_add := SFadd prec emax;
  f_sub := SFsub prec emax;
  f_mul := SFmul prec emax;
  f_div := SFdiv prec emax;
  f_maximum := maximum;
  f_minimum := minimum;
  f_ltb := SFltb;
  f_leb := SFleb
}.

End B64.

Import B64.

(** ** Passband filters (pytransit/contamination/filter.py) *)

Section Filters.
Context {F : Type} {SF : Scalar F}.

(** The attributes every filter has. *)
Record FilterBase : Type := {
  name : string;
  wl_min : F;
  wl_max : F
}.

(** An object of one of the four classes.  A tabulated filter also holds
    its two tables and the interpolant [_ip] built by scipy's [interp1d]. *)
Inductive Filter : Type :=
| PlainFilter (b : FilterBase)
| ClearFilter (b : FilterBase)
| BoxcarFilter (b : FilterBase)
| TabulatedFilter (b : FilterBase) (wl tm : list F)
                  (_ip : list F -> result (list F)).

Definition base (f : Filter) : FilterBase :=
  match f with
  | PlainFilter b | ClearFilter b | BoxcarFilter b
  | TabulatedFilter b _ _ _ => b
  end.

(** What [self(wl)] evaluates to: an array, or, for the base class, the
    class object [NotImplementedError] (returned, not raised). *)
Inductive transmission : Type :=
| Values (tm : list F)
| NotImplementedError_class.


(** [BoxcarFilter.__init__] *)
Definition BoxcarFilter__init__ (name : string) (wl_min wl_max : F)
  : Filter :=
  BoxcarFilter {| name := name; wl_min := wl_min; wl_max := wl_max |}.

(** [interp1d(wl, tm, kind='cubic')] belongs to scipy; it is a parameter
    of the model. *)
Variable interp1d_cubic :
  list F -> list F -> result (list F -> result (list F)).

Definition py_assert (b : bool) : result unit :=
  if b then Ok tt else Raise AssertionError.

(** [diff(a)] *)
Fixpoint np_diff (a : list F) : list F :=
  match a with
  | x :: ((y :: _) as r) => f_sub y x :: np_diff r
  | _ => []
  end.

(** [TabulatedFilter.__init__] *)
Definition TabulatedFilter__init__ (name : string) (wl tm : list F)
  : result Filter :=
  lo <- np_min wl ;;
  hi <- np_max wl ;;
  _ <- py_assert (Nat.eqb (length wl) (length tm)) ;;
  _ <- py_assert (forallb (fun d => f_ltb f_zero d) (np_diff wl)) ;;
  _ <- py_assert (forallb (fun t => f_leb f_zero t && f_leb t f_one) tm) ;;
  ip <- interp1d_cubic wl tm ;;
  Ok (TabulatedFilter {| name := name; wl_min := lo; wl_max := hi |}
                      wl tm ip).

(** [self(wl)], dispatched on the class of [self]. *)
Definition call (self : Filter) (wl : list F) : result transmission :=
  match self with
  | PlainFilter _ => Ok NotImplementedError_class
  | ClearFilter _ => Ok (Values (map (fun _ => f_one) wl))
  | BoxcarFilter b =>
      Ok (Values (map (fun w => if f_ltb (wl_min b) w && f_ltb w (wl_max b)
                                then f_one else f_zero) wl))
  | TabulatedFilter _ _ _ ip => v <- ip wl ;; Ok (Values v)
  end.

(** [Filter.sample], the method of the base class. *)
Definition Filter_sample (self : Filter) (n : option Z)
  : result (list F * transmission) :=
  let b := base self in
  wl <- linspace (f_add (wl_min b) (f_lit 1 100000))
                 (f_sub (wl_max b) (f_lit 1 100000)) n ;;
  tm <- call self wl ;;
  Ok (wl, tm).

(** [TabulatedFilter.sample], which overrides it. *)
Definition TabulatedFilter_sample (wl tm : list F) (n : option Z)
  : result (list F * transmission) :=
  Ok (wl, Values tm).

(** [self.sample(n)], dispatched on the class of [self]. *)
Definition sample (self : Filter) (n : option Z)
  : result (list F * transmission) :=
  match self with
  | TabulatedFilter _ wl tm _ => TabulatedFilter_sample wl tm n
  | _ => Filter_sample self n
  end.

(** The module-level filters. *)
Definition sdss_g := BoxcarFilter__init__ "g'" (f_of_Z 400) (f_of_Z 550).
Definition sdss_r := BoxcarFilter__init__ "r'" (f_of_Z 570) (f_of_Z 690).
Definition sdss_i := BoxcarFilter__init__ "i'" (f_of_Z 710) (f_of_Z 790).
Definition sdss_z := BoxcarFilter__init__ "z'" (f_of_Z 810) (f_of_Z 900).

(** [arange(350, 960, 25)] *)
Definition kepler_wl : list F :=
  map (fun k => f_of_Z (350 + 25 * k)) (py_range 25).

Definition kepler_tm : list F :=
  map (fun m => f_lit m 1000)
      [0; 1; 0; 56; 465; 536; 624; 663;
       681; 715; 713; 696; 670; 649; 616; 574;
       541; 490; 468; 400; 332; 279; 20; 0;
       0].

Definition kepler : result Filter :=
  TabulatedFilter__init__ "kepler" kepler_wl kepler_tm.

End Filters.

Arguments Filter F : clear implicits.
Arguments FilterBase F : clear implicits.
Arguments transmission F : clear implicits.

(** ** exact: rational arithmetic without rounding *)

Module Exact.

(** A rational number, or the one value that stands for every non-finite
    float (numpy's result of a division by zero). *)
Inductive exact : Type :=
| Fin (q : Qc)
| NaN.

Definition of_Z (z : Z) : exact := Fin (Q2Qc (inject_Z z)).

Definition lift2 (op : Qc -> Qc -> Qc) (a b : exact) : exact :=
  match a, b with
  | Fin x, Fin y => Fin (op x y)
  | _, _ => NaN
  end.

Definition is_zero (q : Qc) : bool := Qeq_bool q 0.

Definition div (a b : exact) : exact :=
  match a, b with
  | Fin x, Fin y => if is_zero y then NaN else Fin (x / y)%Qc
  | _, _ => NaN
  end.

Definition leb (a b : exact) : bool :=
  match a, b with
  | Fin x, Fin y => Qle_bool x y
  | _, _ => false
  end.

Definition ltb (a b : exact) : bool :=
  match a, b with
  | Fin x, Fin y => negb (Qle_bool y x)
  | _, _ => false
  end.

Definition is_nan (a : exact) : bool :=
  match a with NaN => true | Fin _ => false end.

(** numpy's scalar loops, as for float64. *)
Definition maximum (a b : exact) : exact :=
  if leb b a || is_nan a then a else b.

Definition minimum (a b : exact) : exact :=
  if leb a b || is_nan a then a else b.

#[export] Instance scalar : Scalar exact := {
  f_of_Z := of_Z;
  f_add := lift2 Qcplus;
  f_sub := lift2 Qcminus;
  f_mul := lift2 Qcmult;
  f_div := div;
  f_maximum := maximum;
  f_minimum := minimum;
  f_ltb := ltb;
  f_leb := leb
}.

(** The rational value of a finite number (0 for [NaN]); used to display
    results. *)
Definition to_Q (a : exact) : Q :=
  match a with Fin q => q | NaN => 0%Q end.

End Exact.

Definition empty_ps : ParameterSet := {| ps_parameters := []; ps_blocks := [] |}.

(** * Vocabulary of the properties *)

Unset Implicit Arguments.

Section Vocabulary.
Context {F : Type} {SF : Scalar F}.

(** ** What [_init_p_baseline] builds *)

(** The basis matrices for given normalised times. *)
Definition legendre_bases (deg : Z) (mts : list (list F)) : list (matrix F) :=
  map (fun t => Matrix (map (legvander_row deg) t) (Z.to_nat (deg + 1))) mts.

(** The declarations registered by [_init_p_baseline]. *)
Definition declarations (self : LegendreBaseline F) : list LParameter :=
  flat_map (bl_declarations (nlegendre self)) (py_range (nlc self)).

(** The absolute start offset of the baseline block in registry [ps0]. *)
Definition block_start (ps0 : ParameterSet) : Z :=
  Z.of_nat (length (ps_parameters ps0)).

(** The object after a successful run of [_init_p_baseline]. *)
Definition initialised (self : LegendreBaseline F) (window : F)
    (ofl : list F) (ps0 : ParameterSet) : LegendreBaseline F :=
  let mts := normalise window (mean_centre (times self)) in
  let start := block_start ps0 in
  {| nlegendre := nlegendre self; times := times self;
     timea := timea self; lcslices := lcslices self; nlc := nlc self;
     ps := Some (add_lightcurve_block "baseline" (nlegendre self + 1)
                   (nlc self) (declarations self) ps0);
     ofluxa := Some ofl;
     mtimes := Some mts; windows := Some window;
     legs := Some (legendre_bases (nlegendre self) mts);
     _sl_bl := Some (Slice start
                       (start + Z.of_nat (length (declarations self))));
     _start_bl := Some start |}.

(** ** What [baseline] computes *)

(** The coefficients of light curve [k] inside the baseline block [bl]:
    [bl[k*n1:(k+1)*n1]]. *)
Definition coeffs (n1 : nat) (bl : list F) (k : nat) : list F :=
  firstn n1 (skipn (k * n1) bl).

(** The baseline of the light curves numbered [k], [k+1], ... whose basis
    matrices are [lgs], one after the other. *)
Definition curves_spec (n1 : nat) (bl : list F) (k : nat)
    (lgs : list (matrix F)) : list F :=
  concat (map (fun jm => map (dot (coeffs n1 bl (fst jm))) (m_rows (snd jm)))
              (combine (seq k (length lgs)) lgs)).

(** The baseline block of a parameter vector: [pv[start:start+size]]. *)
Definition block (start size : nat) (pv : list F) : list F :=
  firstn size (skipn start pv).

(** The row [baseline] computes for parameter vector [pv]. *)
Definition row_spec (lgs : list (matrix F)) (start n1 : nat) (pv : list F)
  : list F :=
  curves_spec n1 (block start (length lgs * n1) pv) 0 lgs.

(** Whether a parameter vector is long enough to hold the block. *)
Definition covers (nlc start n1 : nat) (pv : list F) : bool :=
  (nlc =? 0)%nat || (start + nlc * n1 <=? length pv)%nat.

(** The shape of a list of basis matrices: matrix [i] has one row per time
    point of light curve [i] and [n1] columns. *)
Definition bases_shape (n1 : nat) (ts : list (list F))
    (lgs : list (matrix F)) : Prop :=
  Forall2 (fun t m => length (m_rows m) = length t /\ m_ncols m = n1) ts lgs.

(** An object on which [baseline] can run: the attributes set by the
    host class and by [_init_p_baseline] describe the light curves [ts],
    with basis matrices [lgs] of [n1] columns and the baseline block
    starting at [start]. *)
Record ready (self : LegendreBaseline F) (ts : list (list F))
    (lgs : list (matrix F)) (start n1 : nat) : Prop := {
  rd_timea : exists ta, timea self = Some ta
                        /\ length ta = length (concat ts);
  rd_lcslices : lcslices self = Some (lc_slices 0 ts);
  rd_legs : legs self = Some lgs;
  rd_shape : bases_shape n1 ts lgs;
  rd_degree : nlegendre self + 1 = Z.of_nat n1;
  rd_pos : (1 <= n1)%nat;
  rd_slice : _sl_bl self
             = Some (Slice (Z.of_nat start)
                           (Z.of_nat start + Z.of_nat (length ts * n1)))
}.

(** ** Parameter vectors *)

(** The baseline block that asks for no correction: for each of the [nlc]
    light curves the intercept 1 followed by [deg] coefficients 0. *)
Definition neutral_block (deg : Z) (nlc : nat) : list F :=
  concat (repeat (f_one :: repeat f_zero (Z.to_nat deg)) nlc).

(** A basis row that starts with 1 and is finite, for a given notion [fin]
    of finite number. *)
Definition unit_row (fin : F -> bool) (row : list F) : Prop :=
  exists rest, row = f_one :: rest /\ Forall (fun b => fin b = true) rest.



End Vocabulary.

(** ** Concrete light curves on float64 *)

(** Two light curves of three points each, degree 2, on float64. *)
Definition demo_times : list (list float64) :=
  map (map B64.of_Z) [[0; 1; 2]; [10; 11; 12]].

Definition demo_fluxes : list (list float64) :=
  map (map B64.of_Z) [[1; 1; 1]; [1; 1; 1]].

Definition demo_lb : LegendreBaseline float64 :=
  Eval vm_compute in
    initialised (host_object demo_times demo_fluxes 2 empty_ps)
                (B64.of_Z 2) (concat demo_fluxes) empty_ps.

(** One light curve whose three timestamps are all 3.0, degree 1. *)
Definition flat_times : list (list float64) := [map B64.of_Z [3; 3; 3]].

Definition flat_fluxes : list (list float64) := [map B64.of_Z [1; 1; 1]].

(** ** Concrete light curves in exact arithmetic *)

Import Exact.




(** Two light curves, the second one unevenly sampled, degree 2. *)
Definition ex_times : list (list exact) :=
  map (map Exact.of_Z) [[0; 1; 2]; [10; 11; 13]]%Z.

Definition ex_fluxes : list (list exact) :=
  map (map Exact.of_Z) [[1; 1; 1]; [1; 1; 1]]%Z.

Definition ex_lb : LegendreBaseline exact :=
  Eval vm_compute in
    match setup ex_times ex_fluxes 2 empty_ps with
    | Ok lb => lb
    | Raise _ => __init__ 2
    end.

(** Two parameter batches of one row each, and what [baseline] returns. *)
Definition ex_P1 : list (list exact) := [map Exact.of_Z [1; 1; 0; 1; 0; 2]%Z].


Definition ex_R1 : list (list exact) :=
  Eval vm_compute in
    match baseline ex_lb (Arr2 ex_P1) with Ok r => r | Raise _ => [] end.


(** ** The registered declarations *)

(** The intercept declaration of light curve [tn] (line 44 of the source). *)
Definition intercept_decl (tn : Z) : LParameter :=
  {| p_name := "bli_" ++ str_of_Z tn;
     p_description := "bl_intercept_" ++ str_of_Z tn;
     p_unit := "";
     p_prior := NP 1 (1 # 100);
     p_bounds := ((98 # 100)%Q, (102 # 100)%Q) |}.

(** The declaration of coefficient [ipoly] of light curve [tn] (lines 46 and
    47 of the source). *)
Definition coefficient_decl (tn ipoly : Z) : LParameter :=
  {| p_name := "bls_" ++ str_of_Z tn ++ "_" ++ str_of_Z ipoly;
     p_description := "bl_c_" ++ str_of_Z tn ++ "_" ++ str_of_Z ipoly;
     p_unit := "";
     p_prior := NP 0 (1 # 1000);
     p_bounds := ((- 1 # 10)%Q, (1 # 10)%Q) |}.

(** ** Shifted light curves *)


(** ** Further concrete objects on float64 *)

(** The registry after [setup] of the two example light curves. *)
Definition demo_ps : ParameterSet :=
  Eval vm_compute in
    match ps demo_lb with Some p => p | None => empty_ps end.

(** Two parameter vectors with the same coefficients for light curve 0 and
    the rows [baseline] returns for them. *)
Definition demo_pv1 : list float64 := map B64.of_Z [1; 0; 0; 1; 0; 0].

Definition demo_pv2 : list float64 := map B64.of_Z [1; 0; 0; 2; 1; 1].

Definition demo_r1 : list float64 :=
  Eval vm_compute in
    match baseline demo_lb (Arr1 demo_pv1) with
    | Ok [r] => r
    | _ => []
    end.

Definition demo_r2 : list float64 :=
  Eval vm_compute in
    match baseline demo_lb (Arr1 demo_pv2) with
    | Ok [r] => r
    | _ => []
    end.

(** ** Filters *)

(** A wavelength at which the comparison [wl_min < w < wl_max] of a boxcar
    filter fails: at or below the lower edge, at or above the upper edge,
    or NaN. *)
Definition outside (b : FilterBase float64) (w : float64) : bool :=
  SFleb w (wl_min b) || SFleb (wl_max b) w || B64.is_nan w.

(** The four SDSS passbands of the module. *)
Definition sdss : list (Filter float64) := [sdss_g; sdss_r; sdss_i; sdss_z].

(** [self(array([w]))] is [array([1.])]. *)
Definition transmits (self : Filter float64) (w : float64) : Prop :=
  call self [w] = Ok (Values [f_one]).







(** ** Tactics *)



(** * Properties *)

(** ** Lists, slices and fallible maps *)

Lemma clamp_index_nonneg (i : Z) (n : nat) :
  0 <= i -> clamp_index i n = Nat.min (Z.to_nat i) n.
Proof.
  intros Hi. unfold clamp_index.
  destruct (Z.ltb_spec i 0); lia.
Qed.

Lemma getslice_nonneg {A} (l : list A) (i j : Z) :
  0 <= i -> 0 <= j ->
  getslice l (Slice i j) = firstn (Z.to_nat j - Z.to_nat i) (skipn (Z.to_nat i) l).
Proof.
  intros Hi Hj. unfold getslice. cbn [sl_start sl_stop].
  rewrite (clamp_index_nonneg i _ Hi), (clamp_index_nonneg j _ Hj).
  destruct (Nat.le_gt_cases (length l) (Z.to_nat i)) as [Hle | Hlt].
  - rewrite (Nat.min_r (Z.to_nat i)) by lia.
    rewrite !skipn_all2 by lia. now rewrite !firstn_nil.
  - rewrite (Nat.min_l (Z.to_nat i)) by lia.
    destruct (Nat.le_gt_cases (Z.to_nat j) (length l)) as [Hj' | Hj'].
    + now rewrite (Nat.min_l (Z.to_nat j)) by lia.
    + rewrite (Nat.min_r (Z.to_nat j)) by lia.
      rewrite !firstn_all2; try reflexivity; rewrite length_skipn; lia.
Qed.

Lemma mapM_total {A B} (f : A -> result B) (g : A -> B) (l : list A) :
  (forall a, In a l -> f a = Ok (g a)) -> mapM f l = Ok (map g l).
Proof.
  induction l as [| a l IH]; intros Hf; cbn; [reflexivity |].
  rewrite (Hf a) by now left. cbn.
  rewrite IH by (intros; apply Hf; now right). reflexivity.
Qed.

Lemma mapM_ext {A B} (f g : A -> result B) (l : list A) :
  (forall a, In a l -> f a = g a) -> mapM f l = mapM g l.
Proof.
  induction l as [| a l IH]; intros Hf; cbn; [reflexivity |].
  rewrite (Hf a) by now left.
  rewrite IH by (intros; apply Hf; now right). reflexivity.
Qed.

Lemma mapM_length {A B} (f : A -> result B) (l : list A) (bs : list B) :
  mapM f l = Ok bs -> length bs = length l.
Proof.
  revert bs. induction l as [| a l IH]; intros bs; cbn.
  - intros [= <-]. reflexivity.
  - destruct (f a); cbn; [| discriminate].
    destruct (mapM f l); cbn; [| discriminate].
    intros [= <-]. cbn. f_equal. now apply IH.
Qed.

Lemma py_range_of_nat (n : nat) :
  py_range (Z.of_nat n) = map Z.of_nat (seq 0 n).
Proof. unfold py_range. now rewrite Nat2Z.id. Qed.

Lemma length_py_range (n : Z) : length (py_range n) = Z.to_nat n.
Proof. unfold py_range. now rewrite length_map, length_seq. Qed.

(** ** What [_init_p_baseline] computes *)

Section InitFacts.
Context {F : Type} {SF : Scalar F}.

Lemma mapM_legvander (deg : Z) (mts : list (list F)) :
  0 <= deg ->
  mapM (fun t => legvander t deg) mts = Ok (legendre_bases deg mts).
Proof.
  intros Hdeg. unfold legendre_bases. apply mapM_total.
  intros t _. unfold legvander.
  destruct (Z.ltb_spec deg 0); [lia | reflexivity].
Qed.

Lemma mapM_legvander_negative (deg : Z) (mts : list (list F)) :
  deg < 0 -> mts <> [] ->
  mapM (fun t => legvander t deg) mts = Raise ValueError.
Proof.
  intros Hdeg Hne. destruct mts as [| t mts]; [congruence |].
  cbn. unfold legvander.
  destruct (Z.ltb_spec deg 0); [reflexivity | lia].
Qed.

Lemma global_window_nonempty (mts : list (list F)) (w : F) :
  global_window mts = Ok w -> mts <> [].
Proof. destruct mts; [discriminate | congruence]. Qed.

Lemma last_block_add (nm : string) (a b : Z) (ds : list LParameter)
    (ps0 : ParameterSet) :
  last_block (add_lightcurve_block nm a b ds ps0)
  = Ok {| blk_name := nm; blk_start := block_start ps0;
          blk_slice := Slice (block_start ps0)
                             (block_start ps0 + Z.of_nat (length ds)) |}.
Proof.
  unfold last_block, add_lightcurve_block. cbn [ps_blocks].
  now rewrite rev_app_distr.
Qed.

(** [_init_p_baseline] fails only where numpy fails on an empty input or
    a negative degree, or where an attribute is missing; otherwise it
    returns the initialised object. *)
Lemma init_p_baseline_spec (self : LegendreBaseline F) :
  _init_p_baseline self =
  match global_window (mean_centre (times self)) with
  | Raise e => Raise e
  | Ok window =>
      if nlegendre self <? 0 then Raise ValueError
      else match ofluxa self, ps self with
           | Some ofl, Some ps0 => Ok (initialised self window ofl ps0)
           | _, _ => Raise AttributeError
           end
  end.
Proof.
  unfold _init_p_baseline.
  destruct (global_window (mean_centre (times self))) as [w | e] eqn:Hw;
    cbn [bind]; [| reflexivity].
  apply global_window_nonempty in Hw.
  destruct (Z.ltb_spec (nlegendre self) 0) as [Hneg | Hpos].
  - rewrite mapM_legvander_negative; [reflexivity | assumption |].
    unfold normalise. intros Hnil. apply map_eq_nil in Hnil. contradiction.
  - rewrite mapM_legvander by assumption. cbn [bind].
    destruct (ofluxa self) as [ofl |]; cbn [attr bind]; [| reflexivity].
    destruct (ps self) as [ps0 |]; cbn [attr bind]; [| reflexivity].
    fold (declarations self).
    rewrite last_block_add. reflexivity.
Qed.

Lemma length_bl_declarations (deg tn : Z) :
  0 <= deg -> length (bl_declarations deg tn) = Z.to_nat (deg + 1).
Proof.
  intros Hdeg. unfold bl_declarations. cbn [length].
  rewrite !length_map, length_py_range. lia.
Qed.

Lemma length_declarations (self : LegendreBaseline F) :
  0 <= nlegendre self ->
  length (declarations self)
  = (Z.to_nat (nlc self) * Z.to_nat (nlegendre self + 1))%nat.
Proof.
  intros Hdeg. unfold declarations.
  rewrite <- (length_py_range (nlc self)).
  induction (py_range (nlc self)) as [| tn l IH]; [reflexivity |].
  cbn [flat_map]. rewrite length_app, IH, length_bl_declarations by assumption.
  cbn [length]. lia.
Qed.

End InitFacts.

(** ** What [baseline] computes *)

Section BaselineFacts.
Context {F : Type} {SF : Scalar F}.

Lemma getslice_coeffs (n1 k : nat) (bl : list F) :
  getslice bl (Slice (Z.of_nat k * Z.of_nat n1)
                     ((Z.of_nat k + 1) * Z.of_nat n1))
  = coeffs n1 bl k.
Proof.
  rewrite getslice_nonneg by lia. unfold coeffs.
  replace (Z.to_nat (Z.of_nat k * Z.of_nat n1)) with (k * n1)%nat by lia.
  replace (Z.to_nat ((Z.of_nat k + 1) * Z.of_nat n1) - k * n1)%nat
    with n1 by lia.
  reflexivity.
Qed.

Lemma length_coeffs (n1 k : nat) (bl : list F) :
  length (coeffs n1 bl k) = Nat.min n1 (length bl - k * n1).
Proof. unfold coeffs. now rewrite length_firstn, length_skipn. Qed.

Lemma baseline_curve_step (self : LegendreBaseline F) (lgs0 : list (matrix F))
    (n1 k : nat) (m : matrix F) (bl row : list F) (sl : pyslice) :
  legs self = Some lgs0 ->
  nlegendre self + 1 = Z.of_nat n1 ->
  nth_error lgs0 k = Some m ->
  baseline_curve self bl row (Z.of_nat k, sl)
  = (v <- matmul_vT (coeffs n1 bl k) m ;; setslice row sl v).
Proof.
  intros Hlegs Hn1 Hnth. unfold baseline_curve. cbv beta iota zeta.
  rewrite Hlegs, Hn1, getslice_coeffs. cbn [attr bind].
  rewrite Nat2Z.id, Hnth. reflexivity.
Qed.

Lemma setslice_exact (done rest v : list F) :
  (length v <= length rest)%nat ->
  setslice (done ++ rest)
           (Slice (Z.of_nat (length done))
                  (Z.of_nat (length done) + Z.of_nat (length v))) v
  = Ok (done ++ v ++ skipn (length v) rest).
Proof.
  intros Hlen. unfold setslice. cbn [sl_start sl_stop].
  rewrite !clamp_index_nonneg by lia. rewrite length_app.
  replace (Nat.min (Z.to_nat (Z.of_nat (length done))) (length done + length rest))
    with (length done) by lia.
  replace (Nat.min (Z.to_nat (Z.of_nat (length done) + Z.of_nat (length v)))
                   (length done + length rest))
    with (length done + length v)%nat by lia.
  replace (length done + length v - length done)%nat with (length v) by lia.
  rewrite Nat.eqb_refl.
  rewrite firstn_app, firstn_all, Nat.sub_diag, firstn_O, app_nil_r.
  rewrite skipn_app, skipn_all2 by lia.
  replace (length done + length v - length done)%nat with (length v) by lia.
  reflexivity.
Qed.

(** The inner loop of [baseline], started at light curve [k] on a row
    whose first [length done] entries are already written: it succeeds
    exactly when the block [bl] holds [n1] coefficients for every remaining
    curve, and then appends their baselines. *)
Lemma foldM_curves (self : LegendreBaseline F) (lgs0 : list (matrix F))
    (n1 : nat) (bl : list F) :
  legs self = Some lgs0 ->
  nlegendre self + 1 = Z.of_nat n1 ->
  (1 <= n1)%nat ->
  forall (ts : list (list F)) (lgs : list (matrix F)) (k : nat)
         (done rest : list F),
    bases_shape n1 ts lgs ->
    (forall j, nth_error lgs0 (k + j) = nth_error lgs j) ->
    length rest = length (concat ts) ->
    foldM (baseline_curve self bl)
          (combine (map Z.of_nat (seq k (length ts)))
                   (lc_slices (Z.of_nat (length done)) ts))
          (done ++ rest)
    = if (length ts =? 0)%nat || ((k + length ts) * n1 <=? length bl)%nat
      then Ok (done ++ curves_spec n1 bl k lgs)
      else Raise ValueError.
Proof.
  intros Hlegs Hn1 Hpos ts lgs k done rest Hshape.
  revert k done rest.
  induction Hshape as [| t m ts lgs [Hrows Hcols] Hshape IH];
    intros k done rest Hsuffix Hrest.
  - cbn in Hrest. apply length_zero_iff_nil in Hrest. subst rest.
    cbn. unfold curves_spec. cbn. reflexivity.
  - cbn [length seq map lc_slices combine foldM].
    rewrite (baseline_curve_step self lgs0 n1 k m); trivial.
    2:{ specialize (Hsuffix 0%nat). now rewrite Nat.add_0_r in Hsuffix. }
    unfold matmul_vT. rewrite Hcols, length_coeffs.
    cbn [concat] in Hrest. rewrite length_app in Hrest.
    destruct (Nat.leb_spec ((k + S (length ts)) * n1) (length bl))
      as [Hfull | Hshort].
    + (* every remaining curve has its coefficients *)
      rewrite Bool.orb_true_r.
      replace (Nat.min n1 (length bl - k * n1) =? n1)%nat with true
        by (symmetry; apply Nat.eqb_eq; nia).
      cbn [bind].
      set (v := map (dot (coeffs n1 bl k)) (m_rows m)).
      assert (Hv : length v = length t)
        by (unfold v; now rewrite length_map).
      rewrite <- Hv. rewrite setslice_exact by lia. cbn [bind].
      rewrite app_assoc.
      replace (Z.of_nat (length done) + Z.of_nat (length v))
        with (Z.of_nat (length (done ++ v))) by (rewrite length_app; lia).
      rewrite (IH (S k) (done ++ v) (skipn (length v) rest)).
      * replace ((length ts =? 0)%nat
                 || ((S k + length ts) * n1 <=? length bl)%nat) with true.
        2:{ symmetry. apply Bool.orb_true_iff. right.
            apply Nat.leb_le. nia. }
        unfold curves_spec. cbn [length seq combine map concat fst snd].
        fold v. now rewrite <- app_assoc.
      * intros j. specialize (Hsuffix (S j)). cbn [nth_error] in Hsuffix.
           rewrite <- Hsuffix. f_equal. lia.
      * rewrite length_skipn. lia.
    + (* the block ends before the coefficients of some remaining curve *)
      cbn [Nat.eqb orb].
      destruct (Nat.eqb_spec (Nat.min n1 (length bl - k * n1)) n1)
        as [Henough | Hfew]; cbn [bind].
      * set (v := map (dot (coeffs n1 bl k)) (m_rows m)).
        assert (Hv : length v = length t)
          by (unfold v; now rewrite length_map).
        rewrite <- Hv. rewrite setslice_exact by lia. cbn [bind].
        rewrite app_assoc.
        replace (Z.of_nat (length done) + Z.of_nat (length v))
          with (Z.of_nat (length (done ++ v))) by (rewrite length_app; lia).
        rewrite (IH (S k) (done ++ v) (skipn (length v) rest)).
        -- replace ((length ts =? 0)%nat
                    || ((S k + length ts) * n1 <=? length bl)%nat)
             with false; [reflexivity |].
           symmetry. apply Bool.orb_false_iff. split.
           ++ apply Nat.eqb_neq. intros Hz. rewrite Hz in Hshort. nia.
           ++ apply Nat.leb_gt. nia.
        -- intros j. specialize (Hsuffix (S j)). cbn [nth_error] in Hsuffix.
           rewrite <- Hsuffix. f_equal. lia.
        -- rewrite length_skipn. lia.
      * reflexivity.
Qed.

Lemma length_lc_slices (off : Z) (ts : list (list F)) :
  length (lc_slices off ts) = length ts.
Proof.
  revert off. induction ts as [| t ts IH]; intros off; cbn; [reflexivity |].
  now rewrite IH.
Qed.

Lemma bases_shape_length (n1 : nat) (ts : list (list F))
    (lgs : list (matrix F)) :
  bases_shape n1 ts lgs -> length lgs = length ts.
Proof. intros H. symmetry. exact (Forall2_length H). Qed.

Lemma baseline_row_ready (self : LegendreBaseline F) (ts : list (list F))
    (lgs : list (matrix F)) (start n1 : nat) (pv : list F) :
  ready self ts lgs start n1 ->
  baseline_row self (repeat f_zero (length (concat ts))) pv
  = if covers (length ts) start n1 pv
    then Ok (row_spec lgs start n1 pv)
    else Raise ValueError.
Proof.
  intros [_ Hlcs Hlegs Hshape Hdeg Hpos Hsl].
  unfold baseline_row. rewrite Hsl, Hlcs. cbn [attr bind].
  rewrite getslice_nonneg by lia.
  replace (Z.to_nat (Z.of_nat start + Z.of_nat (length ts * n1))
           - Z.to_nat (Z.of_nat start))%nat with (length ts * n1)%nat by lia.
  rewrite Nat2Z.id. fold (block start (length ts * n1) pv).
  unfold enumerate. rewrite length_lc_slices, py_range_of_nat.
  pose proof (foldM_curves self lgs n1 (block start (length ts * n1) pv)
                Hlegs Hdeg Hpos ts lgs 0%nat []
                (repeat f_zero (length (concat ts)))
                Hshape (fun j => eq_refl) (repeat_length _ _)) as Hfold.
  cbn [length app Z.of_nat] in Hfold. rewrite Hfold. clear Hfold.
  unfold covers, row_spec. rewrite (bases_shape_length _ _ _ Hshape).
  cbn [Nat.add app].
  destruct (Nat.eqb_spec (length ts) 0) as [Hz | Hnz]; cbn [orb];
    [reflexivity |].
  assert (Hb : ((length ts * n1 <=? length (block start (length ts * n1) pv))
                = (start + length ts * n1 <=? length pv))%nat).
  { unfold block. rewrite length_firstn, length_skipn.
    destruct (Nat.leb_spec (start + length ts * n1) (length pv));
      [apply Nat.leb_le | apply Nat.leb_gt]; nia. }
  now rewrite Hb.
Qed.

Lemma mapM_combine_repeat {A B C} (g : A -> B -> result C) (z : A)
    (l : list B) :
  mapM (fun rp => g (fst rp) (snd rp)) (combine (repeat z (length l)) l)
  = mapM (g z) l.
Proof.
  induction l as [| b l IH]; cbn; [reflexivity |]. now rewrite IH.
Qed.

(** [baseline] on a ready object: every row of the batch is handled on
    its own. *)
Lemma baseline_ready (self : LegendreBaseline F) (ts : list (list F))
    (lgs : list (matrix F)) (start n1 : nat) (pvp : ndarray F) :
  ready self ts lgs start n1 ->
  baseline self pvp
  = mapM (fun pv => if covers (length ts) start n1 pv
                    then Ok (row_spec lgs start n1 pv)
                    else Raise ValueError)
         (atleast_2d pvp).
Proof.
  intros Hready. unfold baseline.
  destruct (rd_timea _ _ _ _ _ Hready) as (ta & Hta & Hlen).
  rewrite Hta. cbn [attr bind]. unfold np_zeros.
  rewrite (mapM_combine_repeat (baseline_row self)).
  apply mapM_ext. intros pv _. rewrite Hlen.
  now apply baseline_row_ready.
Qed.

End BaselineFacts.

(** ** From [setup] to a ready object *)

Section SetupFacts.
Context {F : Type} {SF : Scalar F}.

Lemma setup_inv (ts fl : list (list F)) (deg : Z) (reg : ParameterSet)
    (lb : LegendreBaseline F) :
  setup ts fl deg reg = Ok lb ->
  exists w,
    global_window (mean_centre ts) = Ok w /\ 0 <= deg /\
    lb = initialised (host_object ts fl deg reg) w (concat fl) reg.
Proof.
  unfold setup. rewrite init_p_baseline_spec. cbn [host_object times nlegendre
    ofluxa ps __init__].
  destruct (global_window (mean_centre ts)) as [w | e]; [| discriminate].
  destruct (Z.ltb_spec deg 0) as [Hneg | Hpos]; [discriminate |].
  intros [= <-]. exists w. auto.
Qed.


Lemma legendre_bases_shape (deg : Z) (w : F) (ts : list (list F)) :
  bases_shape (Z.to_nat (deg + 1)) ts
              (legendre_bases deg (normalise w (mean_centre ts))).
Proof.
  unfold bases_shape, legendre_bases, normalise, mean_centre.
  induction ts as [| t ts IH]; cbn [map]; constructor; [| exact IH].
  cbn [m_rows m_ncols]. now rewrite !length_map.
Qed.

Lemma initialised_ready (ts fl : list (list F)) (deg : Z)
    (reg : ParameterSet) (w : F) :
  0 <= deg ->
  ready (initialised (host_object ts fl deg reg) w (concat fl) reg) ts
        (legendre_bases deg (normalise w (mean_centre ts)))
        (length (ps_parameters reg)) (Z.to_nat (deg + 1)).
Proof.
  intros Hdeg. constructor; cbn.
  - eexists. split; reflexivity.
  - reflexivity.
  - reflexivity.
  - apply legendre_bases_shape.
  - lia.
  - lia.
  - unfold block_start. rewrite length_declarations by (cbn; lia).
    cbn [nlc nlegendre host_object __init__]. now rewrite Nat2Z.id.
Qed.

Lemma setup_ready (ts fl : list (list F)) (deg : Z) (reg : ParameterSet)
    (lb : LegendreBaseline F) :
  setup ts fl deg reg = Ok lb ->
  exists w,
    global_window (mean_centre ts) = Ok w /\
    windows lb = Some w /\
    mtimes lb = Some (normalise w (mean_centre ts)) /\
    ready lb ts (legendre_bases deg (normalise w (mean_centre ts)))
          (length (ps_parameters reg)) (Z.to_nat (deg + 1)).
Proof.
  intros Hsetup. destruct (setup_inv _ _ _ _ _ Hsetup) as (w & Hw & Hdeg & ->).
  exists w. split; [exact Hw |]. split; [reflexivity |].
  split; [reflexivity |]. now apply initialised_ready.
Qed.

End SetupFacts.

(** ** The errors of [baseline] *)

Section BaselineErrors.
Context {F : Type} {SF : Scalar F}.

Lemma mapM_rows_same_length (nlc start n1 P : nat)
    (g : list F -> list F) (pvp : list (list F)) :
  Forall (fun pv => length pv = P) pvp ->
  mapM (fun pv => if covers nlc start n1 pv then Ok (g pv)
                  else Raise ValueError) pvp
  = if (length pvp =? 0)%nat
       || ((nlc =? 0)%nat || (start + nlc * n1 <=? P)%nat)
    then Ok (map g pvp) else Raise ValueError.
Proof.
  intros Hlen.
  destruct ((nlc =? 0)%nat || (start + nlc * n1 <=? P)%nat) eqn:Hc.
  - rewrite Bool.orb_true_r. apply mapM_total.
    intros pv Hin. unfold covers.
    rewrite Forall_forall in Hlen. now rewrite (Hlen pv Hin), Hc.
  - rewrite Bool.orb_false_r.
    destruct Hlen as [| pv pvp Hpv Hlen]; [reflexivity |].
    cbn. unfold covers. now rewrite Hpv, Hc.
Qed.

(** Before [_init_p_baseline] has run nothing can be evaluated: the time
    axis is still None. *)
Lemma baseline_before_setup (deg : Z) (pvp : ndarray F) :
  baseline (__init__ deg) pvp = Raise AttributeError.
Proof. reflexivity. Qed.

Lemma setup_nonempty (ts fl : list (list F)) (deg : Z) (reg : ParameterSet)
    (lb : LegendreBaseline F) :
  setup ts fl deg reg = Ok lb -> ts <> [].
Proof.
  intros Hsetup. destruct (setup_inv _ _ _ _ _ Hsetup) as (w & Hw & _).
  apply global_window_nonempty in Hw. intros ->. now apply Hw.
Qed.

(** After [setup], a batch whose rows all have [P] columns. *)
Lemma baseline_after_setup (ts fl : list (list F)) (deg : Z)
    (reg : ParameterSet) (lb : LegendreBaseline F) (P : nat)
    (pvp : list (list F)) :
  setup ts fl deg reg = Ok lb ->
  Forall (fun pv => length pv = P) pvp ->
  exists lgs,
    legs lb = Some lgs /\
    baseline lb (Arr2 pvp)
    = if (length pvp =? 0)%nat
         || (length (ps_parameters reg) + length ts * Z.to_nat (deg + 1)
             <=? P)%nat
      then Ok (map (row_spec lgs (length (ps_parameters reg))
                             (Z.to_nat (deg + 1))) pvp)
      else Raise ValueError.
Proof.
  intros Hsetup Hlen.
  pose proof (setup_nonempty _ _ _ _ _ Hsetup) as Hne.
  destruct (setup_ready _ _ _ _ _ Hsetup) as (w & _ & _ & _ & Hready).
  eexists. split; [exact (rd_legs _ _ _ _ _ Hready) |].
  rewrite (baseline_ready _ _ _ _ _ _ Hready). cbn [atleast_2d].
  rewrite (mapM_rows_same_length _ _ _ P _ pvp Hlen).
  destruct ts; [congruence | reflexivity].
Qed.

End BaselineErrors.

(** ** The example object *)

Lemma demo_setup : setup demo_times demo_fluxes 2 empty_ps = Ok demo_lb.
Proof. vm_compute. reflexivity. Qed.

(** ** Claims on [baseline] that hold for every arithmetic *)

Section GenericClaims.
Context {F : Type} {SF : Scalar F}.

(** C3 (amended).  [baseline] has no error of its own.  Called on a freshly
    constructed object it fails with Python's AttributeError (the time
    axis is None).  After [setup], on a batch whose rows all have [P]
    columns, it fails exactly when the batch has a row and [P] is smaller
    than the end of the baseline block, and the failure is numpy's
    ValueError of [@]; a batch with more columns than the registry holds
    is evaluated. *)
Theorem baseline_errors (ts fl : list (list F)) (deg : Z)
    (reg : ParameterSet) (lb : LegendreBaseline F) (P : nat)
    (pvp : list (list F)) :
  setup ts fl deg reg = Ok lb ->
  Forall (fun pv => length pv = P) pvp ->
  baseline (__init__ deg) (Arr2 pvp) = Raise AttributeError /\
  if (length pvp =? 0)%nat
     || (length (ps_parameters reg) + length ts * Z.to_nat (deg + 1)
         <=? P)%nat
  then exists fbl, baseline lb (Arr2 pvp) = Ok fbl
                   /\ length fbl = length pvp
  else baseline lb (Arr2 pvp) = Raise ValueError.
Proof.
  intros Hsetup Hlen. split; [apply baseline_before_setup |].
  destruct (baseline_after_setup ts fl deg reg lb P pvp Hsetup Hlen)
    as (lgs & _ & Hb).
  rewrite Hb.
  destruct ((length pvp =? 0)%nat
            || (length (ps_parameters reg) + length ts * Z.to_nat (deg + 1)
                <=? P)%nat).
  - eexists. split; [reflexivity |]. apply length_map.
  - reflexivity.
Qed.

(** C6.  A 1-D parameter vector is evaluated as the batch of one row that
    holds it, whatever the state of the object; after [setup], a vector
    that reaches the end of the baseline block is evaluated without
    error, to one row. *)
Theorem baseline_1d_is_one_row_batch (ts fl : list (list F)) (deg : Z)
    (reg : ParameterSet) (lb : LegendreBaseline F) (v : list F) :
  setup ts fl deg reg = Ok lb ->
  (length (ps_parameters reg) + length ts * Z.to_nat (deg + 1)
   <= length v)%nat ->
  (forall self : LegendreBaseline F,
      baseline self (Arr1 v) = baseline self (Arr2 [v])) /\
  exists row, baseline lb (Arr1 v) = Ok [row]
              /\ baseline lb (Arr2 [v]) = Ok [row].
Proof.
  intros Hsetup Hlen. split; [reflexivity |].
  destruct (baseline_after_setup ts fl deg reg lb (length v) [v] Hsetup)
    as (lgs & _ & Hb); [now repeat constructor |].
  apply Nat.leb_le in Hlen. rewrite Hlen, Bool.orb_true_r in Hb.
  eexists. split; exact Hb.
Qed.

Lemma baseline_row_block (self : LegendreBaseline F) (sl : pyslice)
    (row pv1 pv2 : list F) :
  _sl_bl self = Some sl ->
  getslice pv1 sl = getslice pv2 sl ->
  baseline_row self row pv1 = baseline_row self row pv2.
Proof.
  intros Hsl Heq. unfold baseline_row. rewrite Hsl. cbn [attr bind].
  now rewrite Heq.
Qed.

(** C9.  The output of [baseline] is a function of the baseline slices of
    the rows: two batches with as many rows whose rows agree on the slice
    [_sl_bl] give the same result. *)
Theorem baseline_depends_on_block_only (self : LegendreBaseline F)
    (sl : pyslice) (pvp1 pvp2 : list (list F)) :
  _sl_bl self = Some sl ->
  Forall2 (fun pv1 pv2 => getslice pv1 sl = getslice pv2 sl) pvp1 pvp2 ->
  baseline self (Arr2 pvp1) = baseline self (Arr2 pvp2).
Proof.
  intros Hsl Hagree. unfold baseline. cbn [atleast_2d].
  destruct (timea self) as [ta |]; cbn [attr bind]; [| reflexivity].
  rewrite (Forall2_length Hagree).
  generalize (np_zeros (length pvp2) (length ta)). intros fbl.
  revert fbl. induction Hagree as [| pv1 pv2 pvp1 pvp2 Heq _ IH];
    intros fbl; [reflexivity |].
  destruct fbl as [| row fbl]; [reflexivity |].
  cbn [combine mapM fst snd].
  rewrite (baseline_row_block self sl row pv1 pv2 Hsl Heq).
  now rewrite IH.
Qed.

End GenericClaims.

(** C3, at a batch of one row with five columns where the block needs six. *)
Lemma baseline_errors_witness :
  setup demo_times demo_fluxes 2 empty_ps = Ok demo_lb /\
  Forall (fun pv => length pv = 5%nat) [map B64.of_Z [1; 0; 0; 1; 0]] /\
  baseline (__init__ 2) (Arr2 [map B64.of_Z [1; 0; 0; 1; 0]])
  = Raise AttributeError /\
  baseline demo_lb (Arr2 [map B64.of_Z [1; 0; 0; 1; 0]]) = Raise ValueError.
Proof.
  assert (H : Forall (fun pv : list float64 => length pv = 5%nat)
                     [map B64.of_Z [1; 0; 0; 1; 0]])
    by (constructor; [reflexivity | constructor]).
  split; [exact demo_setup |].
  split; [exact H |].
  exact (baseline_errors demo_times demo_fluxes 2 empty_ps demo_lb 5
           [map B64.of_Z [1; 0; 0; 1; 0]] demo_setup H).
Defined.

(** C3 as stated fails: the registry holds six parameters, the batch has
    seven columns, and [baseline] returns the baseline instead of raising
    an error. *)
Lemma baseline_accepts_other_column_count :
  exists ps',
    ps demo_lb = Some ps' /\ length (ps_parameters ps') = 6%nat /\
    baseline demo_lb (Arr2 [map B64.of_Z [1; 0; 0; 1; 0; 0; 7]])
    = Ok [map B64.of_Z [1; 1; 1; 1; 1; 1]].
Proof.
  eexists. split; [reflexivity |]. split; vm_compute; reflexivity.
Qed.

(** C6, at a vector of six entries. *)
Lemma baseline_1d_is_one_row_batch_witness :
  setup demo_times demo_fluxes 2 empty_ps = Ok demo_lb /\
  (0 + 2 * 3 <= 6)%nat /\
  (forall self : LegendreBaseline float64,
      baseline self (Arr1 (map B64.of_Z [1; 0; 0; 1; 0; 0]))
      = baseline self (Arr2 [map B64.of_Z [1; 0; 0; 1; 0; 0]])) /\
  exists row,
    baseline demo_lb (Arr1 (map B64.of_Z [1; 0; 0; 1; 0; 0])) = Ok [row] /\
    baseline demo_lb (Arr2 [map B64.of_Z [1; 0; 0; 1; 0; 0]]) = Ok [row].
Proof.
  split; [exact demo_setup |]. split; [lia |].
  apply (baseline_1d_is_one_row_batch demo_times demo_fluxes 2 empty_ps
           demo_lb (map B64.of_Z [1; 0; 0; 1; 0; 0]) demo_setup).
  cbn. lia.
Defined.

(** C9, at two rows that differ only after the block. *)
Lemma baseline_depends_on_block_only_witness :
  _sl_bl demo_lb = Some (Slice 0 6) /\
  Forall2 (fun pv1 pv2 => getslice pv1 (Slice 0 6) = getslice pv2 (Slice 0 6))
          [map B64.of_Z [1; 0; 0; 1; 0; 0; 5]]
          [map B64.of_Z [1; 0; 0; 1; 0; 0; 9]] /\
  baseline demo_lb (Arr2 [map B64.of_Z [1; 0; 0; 1; 0; 0; 5]])
  = baseline demo_lb (Arr2 [map B64.of_Z [1; 0; 0; 1; 0; 0; 9]]).
Proof.
  split; [reflexivity |].
  assert (H : Forall2 (fun pv1 pv2 : list float64 =>
                         getslice pv1 (Slice 0 6) = getslice pv2 (Slice 0 6))
                      [map B64.of_Z [1; 0; 0; 1; 0; 0; 5]]
                      [map B64.of_Z [1; 0; 0; 1; 0; 0; 9]])
    by (constructor; [reflexivity | constructor]).
  split; [exact H |].
  exact (baseline_depends_on_block_only demo_lb (Slice 0 6) _ _ eq_refl H).
Defined.

(** ** Sampling a filter *)

Section FilterClaims.
Context {F : Type} {SF : Scalar F}.

Lemma length_set_last {A} (y : list A) (stop : A) :
  y <> [] -> length (removelast y ++ [stop]) = length y.
Proof.
  intros Hne. rewrite length_app, removelast_firstn_len, length_firstn.
  destruct y; [congruence | cbn; lia].
Qed.

(** [linspace] returns [num] points. *)
Lemma length_linspace (start stop : F) (n : Z) (y : list F) :
  linspace start stop (Some n) = Ok y -> 0 <= n /\ length y = Z.to_nat n.
Proof.
  unfold linspace.
  destruct (Z.ltb_spec n 0) as [Hneg | Hpos]; [discriminate |].
  intros [= <-]. split; [assumption |].
  set (grid := map (fun v => f_add v start) _).
  assert (Hgrid : length grid = Z.to_nat n).
  { unfold grid. rewrite length_map.
    destruct (n - 1 >? 0); [destruct (f_eqb _ _) |];
      now rewrite !length_map, length_py_range. }
  destruct (Z.gtb_spec n 1) as [Hmany | Hfew]; [| exact Hgrid].
  rewrite length_set_last; [exact Hgrid |].
  intros Hnil. rewrite Hnil in Hgrid. cbn in Hgrid. lia.
Qed.

(** C10.  [TabulatedFilter.sample] returns the two stored tables for every
    argument [n], None included; the method of the base class, run on the
    same object with a count [k], returns a grid of [k] wavelengths
    whenever it returns. *)
Theorem TabulatedFilter_sample_ignores_n (b : FilterBase F)
    (wl tm : list F) (ip : list F -> result (list F))
    (n : option Z) (k : Z) :
  sample (TabulatedFilter b wl tm ip) n = Ok (wl, Values tm) /\
  match Filter_sample (TabulatedFilter b wl tm ip) (Some k) with
  | Ok (grid, _) => 0 <= k /\ length grid = Z.to_nat k
  | Raise _ => True
  end.
Proof.
  split; [reflexivity |].
  unfold Filter_sample.
  destruct (linspace _ _ (Some k)) as [grid | e] eqn:Hgrid; cbn [bind];
    [| exact I].
  destruct (call _ grid) as [t | e]; cbn [bind]; [| exact I].
  exact (length_linspace _ _ _ _ Hgrid).
Qed.

End FilterClaims.

(** ** Basis construction *)

Section BasisShape.
Context {F : Type} {SF : Scalar F}.

Lemma length_leg_rec (x : F) (k : nat) (i : Z) (vm1 vm2 : F) :
  length (leg_rec x k i vm1 vm2) = k.
Proof.
  revert i vm1 vm2. induction k as [| k IH]; intros i vm1 vm2; cbn;
    [reflexivity | now rewrite IH].
Qed.

Lemma length_legvander_row (deg : Z) (x : F) :
  0 <= deg -> length (legvander_row deg x) = Z.to_nat (deg + 1).
Proof.
  intros Hdeg. unfold legvander_row.
  destruct (Z.gtb_spec deg 0); cbn [length].
  - rewrite length_leg_rec. lia.
  - replace deg with 0 by lia. reflexivity.
Qed.

(** Column 0 of a basis matrix is [x*0 + 1], computed from the abscissa. *)
Lemma hd_legvander_row (deg : Z) (x : F) :
  hd_error (legvander_row deg x)
  = Some (f_add (f_mul (f_add x f_zero) f_zero) f_one).
Proof. unfold legvander_row. now destruct (deg >? 0). Qed.

(** The window and the normalised times, spelled out. *)
Lemma setup_window (ts fl : list (list F)) (deg : Z) (reg : ParameterSet)
    (lb : LegendreBaseline F) :
  setup ts fl deg reg = Ok lb ->
  exists hi lo,
    let centred := map (fun t => map (fun x => f_sub x (np_mean t)) t) ts in
    np_max (concat centred) = Ok hi /\
    np_min (concat centred) = Ok lo /\
    windows lb = Some (f_sub hi lo) /\
    mtimes lb
    = Some (map (fun t => map (fun x => f_div (f_sub x (np_mean t))
                                             (f_sub hi lo)) t) ts).
Proof.
  intros Hsetup.
  destruct (setup_ready ts fl deg reg lb Hsetup) as (w & Hw & Hwin & Hmt & _).
  unfold global_window, np_concatenate in Hw.
  change (map (fun t => map (fun x => f_sub x (np_mean t)) t) ts)
    with (mean_centre ts).
  destruct (mean_centre ts) as [| c cs] eqn:Hc; [discriminate |].
  cbn [bind] in Hw. unfold np_ptp in Hw.
  destruct (np_max (concat (c :: cs))) as [hi |] eqn:Hhi; [| discriminate].
  destruct (np_min (concat (c :: cs))) as [lo |] eqn:Hlo; [| discriminate].
  cbn [bind] in Hw. injection Hw as <-.
  exists hi, lo. cbv zeta.
  split; [exact Hhi |]. split; [exact Hlo |]. split; [exact Hwin |].
  rewrite Hmt, <- Hc. f_equal. unfold normalise, mean_centre.
  rewrite map_map. apply map_ext. intros t. now rewrite map_map.
Qed.

Lemma setup_basis (ts fl : list (list F)) (deg : Z) (reg : ParameterSet)
    (lb : LegendreBaseline F) :
  setup ts fl deg reg = Ok lb ->
  exists mts,
    mtimes lb = Some mts /\ legs lb = Some (legendre_bases deg mts) /\
    0 <= deg /\ Forall2 (fun t mt => length mt = length t) ts mts.
Proof.
  intros Hsetup.
  destruct (setup_inv ts fl deg reg lb Hsetup) as (w & _ & Hdeg & ->).
  eexists. split; [reflexivity |]. split; [reflexivity |].
  split; [assumption |].
  cbn [times host_object]. clear Hsetup.
  unfold normalise, mean_centre. induction ts as [| t ts IH]; cbn [map];
    constructor; [now rewrite !length_map | exact IH].
Qed.

End BasisShape.

(** ** float64: what a zero window does *)

Lemma b64_first_column (x : float64) :
  f_add (f_mul (f_add x f_zero) f_zero) f_one
  = if B64.is_finite x then B64.of_Z 1 else S754_nan.
Proof. destruct x as [s | s | | s m e]; try destruct s; reflexivity. Qed.

Lemma b64_div_zero (x : float64) (s : bool) :
  B64.is_finite (f_div x (S754_zero s)) = false.
Proof. destruct x; reflexivity. Qed.

Lemma Forall2_map_diag {A B} (R : A -> B -> Prop) (f : A -> B) (l : list A) :
  (forall a, R a (f a)) -> Forall2 R l (map f l).
Proof. intros HR. induction l; cbn; constructor; auto. Qed.

Lemma Forall2_map_right {A B C} (R : A -> C -> Prop) (f : B -> C)
    (l : list A) (l' : list B) :
  Forall2 (fun a b => R a (f b)) l l' -> Forall2 R l (map f l').
Proof. induction 1; cbn; constructor; auto. Qed.

(** C4.  Every light curve is centred on its own mean; the window is the
    maximum minus the minimum of the concatenated centred arrays; every
    centred value is divided by that one window.  For the light curves
    [0,1,2] and [10,11,12] the window is 2.0. *)
Theorem window_is_shared (ts fl : list (list float64)) (deg : Z)
    (reg : ParameterSet) (lb : LegendreBaseline float64) :
  setup ts fl deg reg = Ok lb ->
  (exists hi lo,
      let centred := map (fun t => map (fun x => f_sub x (np_mean t)) t) ts in
      np_max (concat centred) = Ok hi /\
      np_min (concat centred) = Ok lo /\
      windows lb = Some (f_sub hi lo) /\
      mtimes lb
      = Some (map (fun t => map (fun x => f_div (f_sub x (np_mean t))
                                               (f_sub hi lo)) t) ts)) /\
  global_window (mean_centre (map (map B64.of_Z) [[0; 1; 2]; [10; 11; 12]]))
  = Ok (B64.of_Z 2).
Proof.
  intros Hsetup. split; [| vm_compute; reflexivity].
  exact (setup_window ts fl deg reg lb Hsetup).
Qed.

(** C4, at the two light curves of the example: the window stored by
    [setup] is 2.0 and the centred values -1, 0, 1 become -0.5, 0, 0.5. *)
Lemma window_is_shared_witness :
  setup demo_times demo_fluxes 2 empty_ps = Ok demo_lb /\
  windows demo_lb = Some (B64.of_Z 2) /\
  mtimes demo_lb
  = Some [[f_lit (-1) 2; B64.of_Z 0; f_lit 1 2];
          [f_lit (-1) 2; B64.of_Z 0; f_lit 1 2]] /\
  global_window (mean_centre demo_times) = Ok (B64.of_Z 2).
Proof.
  split; [exact demo_setup |].
  split; [reflexivity |]. split; [reflexivity |].
  exact (proj2 (window_is_shared demo_times demo_fluxes 2 empty_ps demo_lb
                  demo_setup)).
Defined.

(** C2 (amended).  A zero window is not an error: when the degree is not
    negative and the flux array and the registry are present,
    [_init_p_baseline] returns, stores the zero window, and every
    normalised time is non-finite (NaN or an infinity). *)
Theorem init_p_baseline_zero_window (self : LegendreBaseline float64)
    (s : bool) (ofl : list float64) (ps0 : ParameterSet) :
  global_window (mean_centre (times self)) = Ok (S754_zero s) ->
  0 <= nlegendre self ->
  ofluxa self = Some ofl ->
  ps self = Some ps0 ->
  exists lb mts,
    _init_p_baseline self = Ok lb /\
    windows lb = Some (S754_zero s) /\
    mtimes lb = Some mts /\
    Forall (Forall (fun x => B64.is_finite x = false)) mts.
Proof.
  intros Hw Hdeg Hofl Hps.
  rewrite init_p_baseline_spec, Hw, Hofl, Hps.
  destruct (Z.ltb_spec (nlegendre self) 0); [lia |].
  eexists. eexists. split; [reflexivity |].
  split; [reflexivity |]. split; [reflexivity |].
  unfold normalise. apply Forall_map, Forall_forall. intros t _.
  apply Forall_map, Forall_forall. intros x _. apply b64_div_zero.
Qed.

(** C2, at the light curve [3,3,3]. *)
Lemma init_p_baseline_zero_window_witness :
  global_window (mean_centre flat_times) = Ok (S754_zero false) /\
  exists lb mts,
    _init_p_baseline (host_object flat_times flat_fluxes 1 empty_ps) = Ok lb /\
    windows lb = Some (S754_zero false) /\
    mtimes lb = Some mts /\
    Forall (Forall (fun x => B64.is_finite x = false)) mts.
Proof.
  split; [vm_compute; reflexivity |].
  apply (init_p_baseline_zero_window
           (host_object flat_times flat_fluxes 1 empty_ps) false
           (concat flat_fluxes) empty_ps).
  - vm_compute; reflexivity.
  - cbn; lia.
  - reflexivity.
  - reflexivity.
Defined.

(** C2 as stated fails: on one light curve with the timestamp 3.0 three
    times, basis construction returns an object, with window 0.0 and NaN
    for every normalised time. *)
Lemma zero_window_returns :
  exists lb,
    _init_p_baseline (host_object flat_times flat_fluxes 1 empty_ps) = Ok lb /\
    windows lb = Some (B64.of_Z 0) /\
    mtimes lb = Some [[S754_nan; S754_nan; S754_nan]].
Proof. eexists. vm_compute. repeat split; reflexivity. Qed.

(** C7 (amended).  The basis matrix of light curve [i] has one row per time
    point of the curve and [degree + 1] columns.  Its column 0 is 1.0 in
    the rows whose normalised time is finite, and NaN in the others. *)
Theorem basis_shape_and_first_column (ts fl : list (list float64)) (deg : Z)
    (reg : ParameterSet) (lb : LegendreBaseline float64) :
  setup ts fl deg reg = Ok lb ->
  exists mts lgs,
    mtimes lb = Some mts /\ legs lb = Some lgs /\
    Forall2 (fun t m =>
               length (m_rows m) = length t /\
               m_ncols m = Z.to_nat (deg + 1) /\
               Forall (fun row => length row = Z.to_nat (deg + 1)) (m_rows m))
            ts lgs /\
    Forall2 (fun mt m =>
               Forall2 (fun x row =>
                          hd_error row
                          = Some (if B64.is_finite x then B64.of_Z 1
                                  else S754_nan))
                       mt (m_rows m))
            mts lgs.
Proof.
  intros Hsetup.
  destruct (setup_basis ts fl deg reg lb Hsetup) as (mts & Hmt & Hlegs & Hdeg & Hlen).
  exists mts, (legendre_bases deg mts).
  split; [exact Hmt |]. split; [exact Hlegs |]. split.
  - unfold legendre_bases. apply Forall2_map_right.
    eapply Forall2_impl; [| exact Hlen].
    cbn [m_rows m_ncols]. intros t mt Hl. rewrite length_map.
    split; [exact Hl |]. split; [reflexivity |].
    apply Forall_map, Forall_forall. intros x _.
    now apply length_legvander_row.
  - unfold legendre_bases. apply Forall2_map_diag. intros mt.
    cbn [m_rows]. apply Forall2_map_diag. intros x.
    rewrite hd_legvander_row. f_equal. apply b64_first_column.
Qed.

(** C7, at the two light curves of the example. *)
Lemma basis_shape_and_first_column_witness :
  setup demo_times demo_fluxes 2 empty_ps = Ok demo_lb /\
  exists mts lgs,
    mtimes demo_lb = Some mts /\ legs demo_lb = Some lgs /\
    Forall2 (fun t m =>
               length (m_rows m) = length t /\
               m_ncols m = Z.to_nat (2 + 1) /\
               Forall (fun row => length row = Z.to_nat (2 + 1)) (m_rows m))
            demo_times lgs /\
    Forall2 (fun mt m =>
               Forall2 (fun x row =>
                          hd_error row
                          = Some (if B64.is_finite x then B64.of_Z 1
                                  else S754_nan))
                       mt (m_rows m))
            mts lgs.
Proof.
  split; [exact demo_setup |].
  exact (basis_shape_and_first_column demo_times demo_fluxes 2 empty_ps
           demo_lb demo_setup).
Defined.

(** C7 as stated fails: on one light curve with the timestamp 3.0 three
    times and degree 1, column 0 of the basis matrix is NaN, not 1.0. *)
Lemma first_column_nan :
  exists lb,
    setup flat_times flat_fluxes 1 empty_ps = Ok lb /\
    legs lb = Some [Matrix [[S754_nan; S754_nan]; [S754_nan; S754_nan];
                            [S754_nan; S754_nan]] 2].
Proof. eexists. vm_compute. split; reflexivity. Qed.

(** ** The neutral parameter vector *)

Section Neutral.
Context {F : Type} {SF : Scalar F}.

(** The numbers the arithmetic treats as finite, and the two facts about
    them that make the neutral block neutral. *)
Variable fin : F -> bool.
Hypothesis one_times_one : f_add f_zero (f_mul f_one f_one) = f_one.
Hypothesis plus_zero_times :
  forall b, fin b = true -> f_add f_one (f_mul f_zero b) = f_one.

Lemma dot_zeros_from_one (n : nat) (rest : list F) :
  Forall (fun b => fin b = true) rest ->
  fold_left (fun acc cb => f_add acc (f_mul (fst cb) (snd cb)))
            (combine (repeat f_zero n) rest) f_one
  = f_one.
Proof.
  intros Hfin. revert n.
  induction Hfin as [| b rest Hb _ IH]; intros [| n]; cbn; trivial.
  rewrite (plus_zero_times b Hb). apply IH.
Qed.

Lemma dot_neutral (n : nat) (rest : list F) :
  Forall (fun b => fin b = true) rest ->
  dot (f_one :: repeat f_zero n) (f_one :: rest) = f_one.
Proof.
  intros Hfin. unfold dot. cbn [combine fold_left fst snd].
  rewrite one_times_one. now apply dot_zeros_from_one.
Qed.

Lemma skipn_concat_repeat (b : list F) (nlc j : nat) :
  skipn (j * length b) (concat (repeat b nlc))
  = concat (repeat b (nlc - j)).
Proof.
  revert nlc. induction j as [| j IH]; intros nlc.
  - cbn. now rewrite Nat.sub_0_r.
  - destruct nlc as [| nlc]; [now rewrite skipn_nil |].
    cbn [repeat concat Nat.sub]. cbn [Nat.mul].
    rewrite skipn_app, skipn_all2 by lia. cbn [app].
    replace (length b + j * length b - length b)%nat with (j * length b)%nat
      by lia.
    apply IH.
Qed.

Lemma coeffs_concat_repeat (b : list F) (nlc j : nat) :
  (j < nlc)%nat ->
  coeffs (length b) (concat (repeat b nlc)) j = b.
Proof.
  intros Hj. unfold coeffs. rewrite skipn_concat_repeat.
  destruct (nlc - j)%nat as [| k] eqn:Hk; [lia |].
  cbn [repeat concat]. rewrite firstn_app, firstn_all, Nat.sub_diag.
  cbn. apply app_nil_r.
Qed.

(** When every light curve's coefficients give 1 on every row of its basis
    matrix, the row computed by [baseline] is 1 at every time point. *)
Lemma curves_spec_ones (n1 : nat) (bl : list F) (lgs : list (matrix F))
    (k : nat) :
  (forall j m row, nth_error lgs j = Some m -> In row (m_rows m) ->
                   dot (coeffs n1 bl (k + j)) row = f_one) ->
  curves_spec n1 bl k lgs
  = repeat f_one (length (concat (map (@m_rows F) lgs))).
Proof.
  revert k. induction lgs as [| m lgs IH]; intros k Hone; [reflexivity |].
  unfold curves_spec. cbn [length seq combine map concat fst snd].
  rewrite length_app, repeat_app. f_equal.
  - rewrite <- (Nat.add_0_r k).
    specialize (Hone 0%nat m). cbn [nth_error] in Hone.
    induction (m_rows m) as [| row rows IHr]; [reflexivity |].
    cbn [map length repeat]. f_equal.
    + apply Hone; [reflexivity | now left].
    + apply IHr. intros row' Hm Hin. apply Hone; [exact Hm | now right].
  - apply (IH (S k)). intros j m' row Hnth Hin.
    replace (S k + j)%nat with (k + S j)%nat by lia.
    now apply (Hone (S j) m' row).
Qed.

End Neutral.

Section NeutralBaseline.
Context {F : Type} {SF : Scalar F}.
Variable fin : F -> bool.
Hypothesis one_times_one : f_add f_zero (f_mul f_one f_one) = f_one.
Hypothesis plus_zero_times :
  forall b, fin b = true -> f_add f_one (f_mul f_zero b) = f_one.

Lemma length_neutral_block (deg : Z) (nlc : nat) :
  0 <= deg ->
  length (neutral_block (F := F) deg nlc) = (nlc * Z.to_nat (deg + 1))%nat.
Proof.
  intros Hdeg. unfold neutral_block.
  induction nlc as [| nlc IH]; [reflexivity |].
  cbn [repeat concat]. rewrite length_app, IH. cbn [length].
  rewrite repeat_length. lia.
Qed.

Lemma length_concat_rows (deg : Z) (ts mts : list (list F)) :
  Forall2 (fun t mt => length mt = length t) ts mts ->
  length (concat (map (@m_rows F) (legendre_bases deg mts)))
  = length (concat ts).
Proof.
  induction 1 as [| t mt ts mts Hl _ IH]; [reflexivity |].
  cbn [legendre_bases map concat m_rows]. rewrite !length_app, length_map.
  unfold legendre_bases in IH. now rewrite IH, Hl.
Qed.

(** The neutral block gives the baseline 1 wherever the basis rows are
    finite and start with 1. *)
Lemma baseline_neutral_rows (ts fl : list (list F)) (deg : Z)
    (reg : ParameterSet) (lb : LegendreBaseline F) (sl : pyslice)
    (mts : list (list F)) (pvp : list (list F)) :
  setup ts fl deg reg = Ok lb ->
  _sl_bl lb = Some sl ->
  mtimes lb = Some mts ->
  Forall (Forall (fun x => unit_row fin (legvander_row deg x))) mts ->
  Forall (fun pv => getslice pv sl = neutral_block deg (length ts)) pvp ->
  baseline lb (Arr2 pvp)
  = Ok (map (fun _ => repeat f_one (length (concat ts))) pvp).
Proof.
  intros Hsetup Hsl Hmt Hrows Hpvp.
  pose proof (setup_nonempty ts fl deg reg lb Hsetup) as Hne.
  destruct (setup_basis ts fl deg reg lb Hsetup)
    as (mts' & Hmt' & Hlegs & Hdeg & Hlen).
  rewrite Hmt in Hmt'. injection Hmt' as <-.
  destruct (setup_ready ts fl deg reg lb Hsetup) as (w & _ & _ & Hmtw & Hready).
  rewrite Hmt in Hmtw. injection Hmtw as Hmtw. rewrite <- Hmtw in Hready.
  rewrite (rd_slice _ _ _ _ _ Hready) in Hsl. injection Hsl as <-.
  set (start := length (ps_parameters reg)) in *.
  set (n1 := Z.to_nat (deg + 1)) in *.
  rewrite (baseline_ready lb ts _ start n1 (Arr2 pvp) Hready).
  cbn [atleast_2d]. apply mapM_total. intros pv Hin.
  rewrite Forall_forall in Hpvp. specialize (Hpvp pv Hin).
  rewrite getslice_nonneg in Hpvp by lia.
  replace (Z.to_nat (Z.of_nat start + Z.of_nat (length ts * n1))
           - Z.to_nat (Z.of_nat start))%nat
    with (length ts * n1)%nat in Hpvp by lia.
  rewrite Nat2Z.id in Hpvp. fold (block start (length ts * n1) pv) in Hpvp.
  assert (Hcov : covers (length ts) start n1 pv = true).
  { unfold covers. apply Bool.orb_true_iff. right. apply Nat.leb_le.
    pose proof (f_equal (@length F) Hpvp) as Hl.
    rewrite length_neutral_block in Hl by assumption. fold n1 in Hl.
    unfold block in Hl. rewrite length_firstn, length_skipn in Hl.
    destruct ts; [congruence |]. cbn [length] in *. nia. }
  rewrite Hcov. f_equal. unfold row_spec.
  assert (Hn : length (legendre_bases deg mts) = length ts).
  { unfold legendre_bases. rewrite length_map.
    symmetry. exact (Forall2_length Hlen). }
  rewrite Hn, Hpvp.
  rewrite curves_spec_ones; [now rewrite (length_concat_rows deg ts mts Hlen) |].
  intros j m row Hnth Hrow.
  assert (Hj : (j < length ts)%nat).
  { rewrite <- Hn. apply nth_error_Some. congruence. }
  cbn [Nat.add]. unfold neutral_block.
  replace n1 with (length (f_one :: repeat (f_zero (F := F)) (Z.to_nat deg)))
    by (cbn [length]; rewrite repeat_length; lia).
  rewrite coeffs_concat_repeat by assumption.
  unfold legendre_bases in Hnth. rewrite nth_error_map in Hnth.
  destruct (nth_error mts j) as [mt |] eqn:Hmtj; [| discriminate].
  injection Hnth as <-. cbn [m_rows] in Hrow.
  apply in_map_iff in Hrow. destruct Hrow as (x & <- & Hx).
  rewrite Forall_forall in Hrows.
  pose proof (Hrows mt (nth_error_In _ _ Hmtj)) as Hmtrows.
  rewrite Forall_forall in Hmtrows.
  destruct (Hmtrows x Hx) as (rest & -> & Hfin).
  now apply (dot_neutral fin).
Qed.

End NeutralBaseline.

(** ** exact: finite numbers *)

Local Open Scope Qc_scope.

Lemma of_Z_0 : Exact.of_Z 0 = Fin 0.
Proof. reflexivity. Qed.

Lemma of_Z_1 : Exact.of_Z 1 = Fin 1.
Proof. reflexivity. Qed.







Lemma is_zero_true (q : Qc) : is_zero q = true -> q = 0.
Proof.
  unfold is_zero. intros E. apply Qeq_bool_iff in E.
  exact (Qc_is_canon q 0 E).
Qed.





(** *** The Legendre rows at a finite abscissa *)



(** *** Maximum, minimum and the window *)








(** *** A mean-centred light curve straddles zero *)









(** *** The normalised times *)




(** ** The neutral parameter vector, in exact arithmetic *)







(** ** Linear combinations of parameter vectors *)

Section Lincomb.
Context {F : Type} {SF : Scalar F}.











End Lincomb.

(** ** Linearity, in exact arithmetic *)










(** The values of [ex_R1]: 1 + x + 2*P2(x) on the second light curve. *)
Example ex_R1_values :
  map (map to_Q) ex_R1
  = [[(2 # 3)%Q; 1%Q; (4 # 3)%Q; (16 # 27)%Q; (1 # 27)%Q; (25 # 27)%Q]].
Proof. reflexivity. Qed.


(** ** The neutral parameter vector, on float64 *)

Lemma b64_one_times_one :
  f_add f_zero (f_mul f_one f_one) = (f_one : float64).
Proof. vm_compute. reflexivity. Qed.

Lemma b64_plus_zero_times (b : float64) :
  B64.is_finite b = true -> f_add f_one (f_mul f_zero b) = f_one.
Proof. destruct b; try discriminate; reflexivity. Qed.

(** Rounding plays no part in the neutral baseline: on float64 it is
    exactly 1.0 as soon as the basis rows are finite and start with 1.0. *)
Lemma b64_baseline_neutral (ts fl : list (list float64)) (deg : Z)
    (reg : ParameterSet) (lb : LegendreBaseline float64) (sl : pyslice)
    (mts : list (list float64)) (pvp : list (list float64)) :
  setup ts fl deg reg = Ok lb ->
  _sl_bl lb = Some sl ->
  mtimes lb = Some mts ->
  Forall (Forall (fun x => unit_row B64.is_finite (legvander_row deg x))) mts ->
  Forall (fun pv => getslice pv sl = neutral_block deg (length ts)) pvp ->
  baseline lb (Arr2 pvp)
  = Ok (map (fun _ => repeat (B64.of_Z 1) (length (concat ts))) pvp).
Proof.
  exact (baseline_neutral_rows B64.is_finite b64_one_times_one
           b64_plus_zero_times ts fl deg reg lb sl mts pvp).
Qed.

Example demo_baseline_neutral :
  baseline demo_lb (Arr1 (neutral_block 2 2))
  = Ok [repeat (B64.of_Z 1) 6].
Proof. vm_compute. reflexivity. Qed.

(** With the zero window of [flat_times] the same parameters give NaN. *)
Example flat_baseline_nan :
  (lb <- setup flat_times flat_fluxes 1 empty_ps ;;
   baseline lb (Arr1 (neutral_block 1 1)))
  = Ok [[S754_nan; S754_nan; S754_nan]].
Proof. vm_compute. reflexivity. Qed.

(** ** The Kepler passband *)

(** Whatever interpolant scipy builds, sampling the Kepler filter at three
    points returns its 25 tabulated points. *)
Example kepler_sample_three (ip : list float64 -> result (list float64)) :
  (k <- kepler (fun _ _ => Ok ip) ;; sample k (Some 3%Z))
  = Ok (kepler_wl, Values kepler_tm).
Proof. vm_compute. reflexivity. Qed.

Example kepler_tables : length (kepler_wl (F := float64)) = 25%nat.
Proof. reflexivity. Qed.

(** * Further properties of the code *)

Local Close Scope Qc_scope.

(** ** The outcome of [_init_p_baseline] *)

Section InitOutcome.
Context {F : Type} {SF : Scalar F}.

Lemma length_concat_mean_centre (ts : list (list F)) :
  length (concat (mean_centre ts)) = length (concat ts).
Proof.
  unfold mean_centre. induction ts as [| t ts IH]; [reflexivity |].
  cbn [map concat]. now rewrite !length_app, length_map, IH.
Qed.

Lemma np_ptp_nonempty (a : list F) :
  a <> [] -> exists w, np_ptp a = Ok w.
Proof.
  destruct a as [| x r]; [congruence |]. intros _.
  unfold np_ptp, np_max, np_min. cbn [bind]. eauto.
Qed.

(** The window exists exactly when there is at least one time point. *)
Lemma global_window_outcome (ts : list (list F)) :
  match global_window (mean_centre ts) with
  | Ok _ => concat ts <> []
  | Raise e => concat ts = [] /\ e = ValueError
  end.
Proof.
  unfold global_window, np_concatenate.
  pose proof (length_concat_mean_centre ts) as Hlen.
  destruct (mean_centre ts) as [| c cs] eqn:Hc.
  - cbn [bind]. split; [| reflexivity].
    cbn in Hlen. symmetry in Hlen. now apply length_zero_iff_nil in Hlen.
  - cbn [bind]. destruct (concat (c :: cs)) as [| x r] eqn:Hcat.
    + cbn. split; [| reflexivity].
      cbn in Hlen. symmetry in Hlen. now apply length_zero_iff_nil in Hlen.
    + destruct (np_ptp_nonempty (x :: r)) as (w & ->); [discriminate |].
      intros Hnil. rewrite Hnil in Hlen. discriminate Hlen.
Qed.

(** X1.  [_init_p_baseline] returns exactly when the light curves hold at
    least one time point, the degree is not negative, and the flux array
    and the parameter registry are present.  Without any time point (no
    light curve, or only empty ones) or with a negative degree it fails with
    numpy's ValueError; with the flux array or the registry missing it
    fails with AttributeError. *)
Theorem init_p_baseline_outcome (self : LegendreBaseline F) :
  match _init_p_baseline self with
  | Ok _ =>
      concat (times self) <> [] /\ 0 <= nlegendre self /\
      ofluxa self <> None /\ ps self <> None
  | Raise e =>
      (concat (times self) = [] /\ e = ValueError) \/
      (concat (times self) <> [] /\ nlegendre self < 0 /\ e = ValueError) \/
      (concat (times self) <> [] /\ 0 <= nlegendre self /\
       (ofluxa self = None \/ ps self = None) /\ e = AttributeError)
  end.
Proof.
  rewrite init_p_baseline_spec.
  pose proof (global_window_outcome (times self)) as Hw.
  destruct (global_window (mean_centre (times self))) as [w | e].
  - destruct (Z.ltb_spec (nlegendre self) 0) as [Hneg | Hpos].
    + right. left. auto.
    + destruct (ofluxa self) as [ofl |] eqn:Hofl.
      * destruct (ps self) as [ps0 |] eqn:Hps.
        -- repeat split; trivial; discriminate.
        -- right. right. auto 6.
      * right. right. auto 6.
  - left. exact Hw.
Qed.

End InitOutcome.

(** ** The registered parameter block *)

Section Registry.
Context {F : Type} {SF : Scalar F}.

Lemma init_p_baseline_inv (self lb : LegendreBaseline F) :
  _init_p_baseline self = Ok lb ->
  exists w ofl ps0,
    ofluxa self = Some ofl /\ ps self = Some ps0 /\ 0 <= nlegendre self /\
    lb = initialised self w ofl ps0.
Proof.
  rewrite init_p_baseline_spec.
  destruct (global_window (mean_centre (times self))) as [w | e];
    [| discriminate].
  destruct (Z.ltb_spec (nlegendre self) 0); [discriminate |].
  destruct (ofluxa self) as [ofl |]; [| discriminate].
  destruct (ps self) as [ps0 |]; [| discriminate].
  intros [= <-]. exists w, ofl, ps0. auto.
Qed.

(** X2.  Registration only appends: after [_init_p_baseline] the registry
    holds the old declarations followed by [nlc * (nlegendre + 1)] new
    ones, its blocks are the old ones followed by the block "baseline",
    [_start_bl] is the old length of the registry and [_sl_bl] runs from
    there to its new length. *)
Theorem init_p_baseline_registers (self lb : LegendreBaseline F)
    (ps0 : ParameterSet) :
  _init_p_baseline self = Ok lb ->
  ps self = Some ps0 ->
  exists ps1 new,
    ps lb = Some ps1 /\
    ps_parameters ps1 = ps_parameters ps0 ++ new /\
    length new = (Z.to_nat (nlc self) * Z.to_nat (nlegendre self + 1))%nat /\
    _start_bl lb = Some (Z.of_nat (length (ps_parameters ps0))) /\
    _sl_bl lb = Some (Slice (Z.of_nat (length (ps_parameters ps0)))
                            (Z.of_nat (length (ps_parameters ps1)))) /\
    ps_blocks ps1
    = ps_blocks ps0 ++
      [ {| blk_name := "baseline";
           blk_start := Z.of_nat (length (ps_parameters ps0));
           blk_slice := Slice (Z.of_nat (length (ps_parameters ps0)))
                              (Z.of_nat (length (ps_parameters ps1))) |} ].
Proof.
  intros Hinit Hps.
  destruct (init_p_baseline_inv self lb Hinit)
    as (w & ofl & ps0' & _ & Hps' & Hdeg & ->).
  rewrite Hps in Hps'. injection Hps' as <-.
  eexists. exists (declarations self).
  split; [reflexivity |]. cbn [ps_parameters ps_blocks add_lightcurve_block].
  split; [reflexivity |].
  split; [now apply length_declarations |].
  split; [reflexivity |].
  rewrite length_app, Nat2Z.inj_add. split; reflexivity.
Qed.

Lemma nth_error_flat_map_uniform {A B} (f : A -> list B) (m : nat)
    (l : list A) (i k : nat) (a : A) :
  (forall x, length (f x) = m) ->
  nth_error l i = Some a -> (k < m)%nat ->
  nth_error (flat_map f l) (i * m + k) = nth_error (f a) k.
Proof.
  intros Hlen. revert i. induction l as [| x l IH]; intros i Hi Hk.
  - destruct i; discriminate.
  - destruct i as [| i]; cbn [flat_map nth_error] in *.
    + injection Hi as ->. cbn [Nat.mul Nat.add].
      apply nth_error_app1. now rewrite Hlen.
    + rewrite nth_error_app2 by (rewrite Hlen; lia).
      rewrite Hlen. replace (S i * m + k - m)%nat with (i * m + k)%nat by lia.
      now apply IH.
Qed.

Lemma nth_error_py_range (n : Z) (i : nat) :
  (i < Z.to_nat n)%nat -> nth_error (py_range n) i = Some (Z.of_nat i).
Proof.
  intros Hi. unfold py_range. rewrite nth_error_map.
  rewrite nth_error_nth' with (d := 0%nat) by now rewrite length_seq.
  now rewrite seq_nth.
Qed.

Lemma bl_declarations_layout (deg tn : Z) :
  bl_declarations deg tn
  = intercept_decl tn
    :: map (fun j => coefficient_decl tn (1 + j)) (py_range deg).
Proof. unfold bl_declarations. now rewrite map_map. Qed.

(** X3.  The layout of the block: for light curve [i], the declaration at
    offset [i * (nlegendre + 1)] of the block is the intercept of curve [i]
    and the one [k] places further, for [k] from 1 to [nlegendre], is the
    coefficient of degree [k] of curve [i].  This is the chunk
    [bl[i*(n+1):(i+1)*(n+1)]] that [baseline] multiplies with the basis of
    curve [i]. *)
Theorem init_p_baseline_layout (self lb : LegendreBaseline F)
    (ps0 ps1 : ParameterSet) (i : nat) :
  _init_p_baseline self = Ok lb ->
  ps self = Some ps0 ->
  ps lb = Some ps1 ->
  (i < Z.to_nat (nlc self))%nat ->
  let start := length (ps_parameters ps0) in
  let n1 := Z.to_nat (nlegendre self + 1) in
  nth_error (ps_parameters ps1) (start + i * n1)
  = Some (intercept_decl (Z.of_nat i)) /\
  forall k : nat,
    (1 <= k <= Z.to_nat (nlegendre self))%nat ->
    nth_error (ps_parameters ps1) (start + i * n1 + k)
    = Some (coefficient_decl (Z.of_nat i) (Z.of_nat k)).
Proof.
  intros Hinit Hps Hps1 Hi start n1.
  destruct (init_p_baseline_inv self lb Hinit)
    as (w & ofl & ps0' & _ & Hps' & Hdeg & ->).
  rewrite Hps in Hps'. injection Hps' as <-.
  cbn [ps initialised] in Hps1. injection Hps1 as <-.
  cbn [ps_parameters add_lightcurve_block].
  assert (Hnth : forall k, (k < n1)%nat ->
            nth_error (ps_parameters ps0 ++ declarations self)
                      (start + i * n1 + k)
            = nth_error (bl_declarations (nlegendre self) (Z.of_nat i)) k).
  { intros k Hk. rewrite nth_error_app2 by (unfold start; lia).
    replace (start + i * n1 + k - length (ps_parameters ps0))%nat
      with (i * n1 + k)%nat by (unfold start; lia).
    unfold declarations.
    apply nth_error_flat_map_uniform; trivial.
    - intros tn. now apply length_bl_declarations.
    - now apply nth_error_py_range. }
  split.
  - rewrite <- (Nat.add_0_r (start + i * n1)).
    rewrite Hnth by (unfold n1; lia).
    now rewrite bl_declarations_layout.
  - intros k Hk. rewrite Hnth by (unfold n1; lia).
    rewrite bl_declarations_layout.
    destruct k as [| k]; [lia |]. cbn [nth_error].
    rewrite nth_error_map, nth_error_py_range by lia. cbn [option_map].
    do 2 f_equal. lia.
Qed.

End Registry.

(** ** The shape of the result and its light-curve segments *)

Section Segments.
Context {F : Type} {SF : Scalar F}.

Lemma mapM_inv {A B} (f : A -> result B) (l : list A) (bs : list B) :
  mapM f l = Ok bs -> Forall2 (fun a b => f a = Ok b) l bs.
Proof.
  revert bs. induction l as [| a l IH]; intros bs; cbn [mapM].
  - intros [= <-]. constructor.
  - destruct (f a) as [b |] eqn:Hb; cbn [bind]; [| discriminate].
    destruct (mapM f l) as [bs' |]; cbn [bind]; [| discriminate].
    intros [= <-]. constructor; auto.
Qed.

Lemma pieces_lengths (n1 : nat) (bl : list F) (ts : list (list F))
    (lgs : list (matrix F)) (k : nat) :
  bases_shape n1 ts lgs ->
  Forall2 (fun t p => length p = length t) ts
          (map (fun jm => map (dot (coeffs n1 bl (fst jm))) (m_rows (snd jm)))
               (combine (seq k (length lgs)) lgs)).
Proof.
  intros Hshape. revert k.
  induction Hshape as [| t m ts lgs [Hrows _] _ IH]; intros k;
    cbn [length seq combine map]; constructor.
  - cbn [snd]. now rewrite length_map.
  - apply IH.
Qed.



(** What the evaluated rows are, in terms of the stored window. *)
Lemma baseline_rows (ts fl : list (list F)) (deg : Z) (reg : ParameterSet)
    (lb : LegendreBaseline F) (w : F) (pvp : ndarray F)
    (fbl : list (list F)) :
  setup ts fl deg reg = Ok lb ->
  windows lb = Some w ->
  baseline lb pvp = Ok fbl ->
  Forall2 (fun pv row =>
             row = row_spec (legendre_bases deg (normalise w (mean_centre ts)))
                            (length (ps_parameters reg))
                            (Z.to_nat (deg + 1)) pv)
          (atleast_2d pvp) fbl.
Proof.
  intros Hsetup Hwin Hb.
  destruct (setup_ready ts fl deg reg lb Hsetup)
    as (w' & _ & Hwin' & _ & Hready).
  rewrite Hwin in Hwin'. injection Hwin' as <-.
  rewrite (baseline_ready lb ts _ _ _ pvp Hready) in Hb.
  apply mapM_inv in Hb. eapply Forall2_impl; [| exact Hb].
  cbv beta. intros pv row.
  destruct (covers _ _ _ pv); [| discriminate]. now intros [= <-].
Qed.


End Segments.

Section Locality.
Context {F : Type} {SF : Scalar F}.

Lemma getslice_piece (ts pieces : list (list F)) :
  Forall2 (fun t p => length p = length t) ts pieces ->
  forall (done : list F) (i : nat) (sl : pyslice) (p : list F),
    nth_error (lc_slices (Z.of_nat (length done)) ts) i = Some sl ->
    nth_error pieces i = Some p ->
    getslice (done ++ concat pieces) sl = p.
Proof.
  induction 1 as [| t q ts pieces Hl _ IH]; intros done i sl p Hsl Hp.
  - destruct i; discriminate.
  - destruct i as [| i]; cbn [lc_slices nth_error concat] in *.
    + injection Hsl as <-. injection Hp as ->.
      rewrite getslice_nonneg by lia.
      replace (Z.to_nat (Z.of_nat (length done) + Z.of_nat (length t))
               - Z.to_nat (Z.of_nat (length done)))%nat
        with (length p) by lia.
      rewrite Nat2Z.id, skipn_app, skipn_all, Nat.sub_diag. cbn [skipn app].
      now rewrite firstn_app, firstn_all, Nat.sub_diag, firstn_O, app_nil_r.
    + rewrite app_assoc. apply (IH (done ++ q) i sl p); trivial.
      rewrite length_app, Nat2Z.inj_add, Hl. exact Hsl.
Qed.

Lemma nth_error_combine_seq {A} (l : list A) (k i : nat) (a : A) :
  nth_error l i = Some a ->
  nth_error (combine (seq k (length l)) l) i = Some ((k + i)%nat, a).
Proof.
  revert k i. induction l as [| x l IH]; intros k i Hi.
  - destruct i; discriminate.
  - destruct i as [| i]; cbn [length seq combine nth_error] in *.
    + injection Hi as ->. now rewrite Nat.add_0_r.
    + rewrite (IH (S k) i Hi). do 2 f_equal. lia.
Qed.

Lemma coeffs_block (n1 start size i : nat) (pv : list F) :
  (S i * n1 <= size)%nat ->
  coeffs n1 (block start size pv) i = firstn n1 (skipn (start + i * n1) pv).
Proof.
  intros Hi. unfold coeffs, block.
  rewrite skipn_firstn_comm, firstn_firstn, skipn_skipn.
  f_equal; [| f_equal]; nia.
Qed.

Lemma length_lc_slices_lt (ts : list (list F)) (off : Z) (i : nat)
    (sl : pyslice) :
  nth_error (lc_slices off ts) i = Some sl -> (i < length ts)%nat.
Proof.
  intros Hsl. rewrite <- (length_lc_slices off ts).
  apply nth_error_Some. congruence.
Qed.

(** The segment of an evaluated row that belongs to light curve [i]. *)
Lemma row_spec_segment (ts : list (list F)) (lgs : list (matrix F))
    (start n1 : nat) (pv : list F) (i : nat) (sl : pyslice) (m : matrix F) :
  bases_shape n1 ts lgs ->
  nth_error (lc_slices 0 ts) i = Some sl ->
  nth_error lgs i = Some m ->
  getslice (row_spec lgs start n1 pv) sl
  = map (dot (firstn n1 (skipn (start + i * n1) pv))) (m_rows m).
Proof.
  intros Hshape Hsl Hm. unfold row_spec, curves_spec.
  assert (Hi : (i < length lgs)%nat) by (apply nth_error_Some; congruence).
  rewrite <- (coeffs_block n1 start (length lgs * n1) i pv) by nia.
  apply (getslice_piece ts _ (pieces_lengths n1 _ ts lgs 0 Hshape) [] i sl).
  - exact Hsl.
  - rewrite nth_error_map, (nth_error_combine_seq lgs 0 i m Hm). reflexivity.
Qed.

(** X5.  The segment of the result that belongs to light curve [i] depends
    on the coefficients of that curve only: two parameter vectors that
    agree on [pv[start + i*(n+1) : start + (i+1)*(n+1)]] give the same
    baseline on the index range [lcslices[i]], whatever they hold for the
    other curves. *)
Theorem baseline_curve_local (ts fl : list (list F)) (deg : Z)
    (reg : ParameterSet) (lb : LegendreBaseline F)
    (pv1 pv2 r1 r2 : list F) (i : nat) (sl : pyslice) :
  setup ts fl deg reg = Ok lb ->
  baseline lb (Arr1 pv1) = Ok [r1] ->
  baseline lb (Arr1 pv2) = Ok [r2] ->
  nth_error (lc_slices 0 ts) i = Some sl ->
  getslice pv1 (Slice (block_start reg + Z.of_nat i * (deg + 1))
                      (block_start reg + (Z.of_nat i + 1) * (deg + 1)))
  = getslice pv2 (Slice (block_start reg + Z.of_nat i * (deg + 1))
                        (block_start reg + (Z.of_nat i + 1) * (deg + 1))) ->
  getslice r1 sl = getslice r2 sl.
Proof.
  intros Hsetup Hb1 Hb2 Hsl Hc.
  destruct (setup_basis ts fl deg reg lb Hsetup) as (_ & _ & _ & Hdeg & _).
  destruct (setup_ready ts fl deg reg lb Hsetup)
    as (w & _ & Hwin & _ & Hready).
  pose proof (rd_shape _ _ _ _ _ Hready) as Hshape.
  pose proof (baseline_rows ts fl deg reg lb w _ _ Hsetup Hwin Hb1) as H1.
  pose proof (baseline_rows ts fl deg reg lb w _ _ Hsetup Hwin Hb2) as H2.
  cbn [atleast_2d] in H1, H2.
  inversion H1 as [| ? ? ? ? Hr1 _]; subst.
  inversion H2 as [| ? ? ? ? Hr2 _]; subst. clear H1 H2.
  pose proof (length_lc_slices_lt ts 0 i sl Hsl) as Hi.
  destruct (nth_error (legendre_bases deg (normalise w (mean_centre ts))) i)
    as [m |] eqn:Hm.
  2:{ apply nth_error_None in Hm.
      rewrite (bases_shape_length _ _ _ Hshape) in Hm. lia. }
  rewrite !(row_spec_segment ts _ _ _ _ i sl m Hshape Hsl Hm).
  unfold block_start in Hc. rewrite !getslice_nonneg in Hc by nia.
  set (n1 := Z.to_nat (deg + 1)) in *.
  set (start := length (ps_parameters reg)) in *.
  replace (Z.to_nat (Z.of_nat start + Z.of_nat i * (deg + 1)))
    with (start + i * n1)%nat in Hc by (unfold n1; nia).
  replace (Z.to_nat (Z.of_nat start + (Z.of_nat i + 1) * (deg + 1))
           - (start + i * n1))%nat
    with n1 in Hc by (unfold n1; nia).
  now rewrite Hc.
Qed.

End Locality.

(** ** Time offsets, in exact arithmetic *)

Local Open Scope Qc_scope.














Local Close Scope Qc_scope.

(** ** The further properties at the example object *)

Lemma demo_init :
  _init_p_baseline (host_object demo_times demo_fluxes 2 empty_ps)
  = Ok demo_lb.
Proof. exact demo_setup. Qed.

Lemma demo_baseline_pv1 : baseline demo_lb (Arr1 demo_pv1) = Ok [demo_r1].
Proof. vm_compute. reflexivity. Qed.

Lemma demo_baseline_pv2 : baseline demo_lb (Arr1 demo_pv2) = Ok [demo_r2].
Proof. vm_compute. reflexivity. Qed.

(** X2, at the two example light curves and an empty registry: six
    declarations are appended. *)
Lemma init_p_baseline_registers_witness :
  _init_p_baseline (host_object demo_times demo_fluxes 2 empty_ps)
  = Ok demo_lb /\
  ps (host_object demo_times demo_fluxes 2 empty_ps) = Some empty_ps /\
  exists ps1 new,
    ps demo_lb = Some ps1 /\
    ps_parameters ps1 = ps_parameters empty_ps ++ new /\
    length new = 6%nat /\
    _start_bl demo_lb = Some 0 /\
    _sl_bl demo_lb = Some (Slice 0 (Z.of_nat (length (ps_parameters ps1)))) /\
    ps_blocks ps1
    = ps_blocks empty_ps ++
      [ {| blk_name := "baseline"; blk_start := 0;
           blk_slice := Slice 0 (Z.of_nat (length (ps_parameters ps1))) |} ].
Proof.
  split; [exact demo_init |]. split; [reflexivity |].
  exact (init_p_baseline_registers
           (host_object demo_times demo_fluxes 2 empty_ps) demo_lb empty_ps
           demo_init eq_refl).
Defined.

(** X3, at light curve 1 of the example: its intercept is parameter 3, its
    coefficients are parameters 4 and 5. *)
Lemma init_p_baseline_layout_witness :
  _init_p_baseline (host_object demo_times demo_fluxes 2 empty_ps)
  = Ok demo_lb /\
  ps (host_object demo_times demo_fluxes 2 empty_ps) = Some empty_ps /\
  ps demo_lb = Some demo_ps /\
  (1 < 2)%nat /\
  nth_error (ps_parameters demo_ps) 3 = Some (intercept_decl 1) /\
  forall k : nat,
    (1 <= k <= 2)%nat ->
    nth_error (ps_parameters demo_ps) (3 + k)
    = Some (coefficient_decl 1 (Z.of_nat k)).
Proof.
  split; [exact demo_init |]. split; [reflexivity |].
  split; [reflexivity |]. split; [lia |].
  exact (init_p_baseline_layout
           (host_object demo_times demo_fluxes 2 empty_ps) demo_lb empty_ps
           demo_ps 1 demo_init eq_refl eq_refl (le_n 2)).
Defined.


(** X5, at two vectors that differ in the coefficients of light curve 1
    only: the first three values of the results agree. *)
Lemma baseline_curve_local_witness :
  setup demo_times demo_fluxes 2 empty_ps = Ok demo_lb /\
  baseline demo_lb (Arr1 demo_pv1) = Ok [demo_r1] /\
  baseline demo_lb (Arr1 demo_pv2) = Ok [demo_r2] /\
  nth_error (lc_slices 0 demo_times) 0 = Some (Slice 0 3) /\
  getslice demo_pv1 (Slice 0 3) = getslice demo_pv2 (Slice 0 3) /\
  getslice demo_r1 (Slice 0 3) = getslice demo_r2 (Slice 0 3).
Proof.
  split; [exact demo_setup |]. split; [exact demo_baseline_pv1 |].
  split; [exact demo_baseline_pv2 |]. split; [reflexivity |].
  split; [reflexivity |].
  exact (baseline_curve_local demo_times demo_fluxes 2 empty_ps demo_lb
           demo_pv1 demo_pv2 demo_r1 demo_r2 0 (Slice 0 3)
           demo_setup demo_baseline_pv1 demo_baseline_pv2 eq_refl eq_refl).
Defined.

(** ** Sampling a filter *)

Section FilterSampling.
Context {F : Type} {SF : Scalar F}.




End FilterSampling.

(** ** Boxcar filters on float64 *)

Lemma SFcompare_antisym (x y : spec_float) :
  SFcompare y x = option_map CompOpp (SFcompare x y).
Proof.
  destruct x as [sx | sx | | sx mx ex], y as [sy | sy | | sy my ey];
    cbn [SFcompare option_map];
    try destruct sx; try destruct sy; try reflexivity;
    rewrite (Z.compare_antisym ex ey);
    destruct (ex ?= ey); cbn [CompOpp]; try reflexivity;
    change (Pos.compare_cont Eq) with Pos.compare;
    rewrite (Pos.compare_antisym mx my); try reflexivity;
    now rewrite CompOpp_involutive.
Qed.

Lemma SFltb_irrefl (x : spec_float) : SFltb x x = false.
Proof.
  unfold SFltb. pose proof (SFcompare_antisym x x) as H.
  destruct (SFcompare x x) as [[| |] |]; try reflexivity. discriminate H.
Qed.

Lemma SFleb_not_ltb (x y : spec_float) :
  SFleb x y = true -> SFltb y x = false.
Proof.
  unfold SFleb, SFltb. rewrite (SFcompare_antisym x y).
  destruct (SFcompare x y) as [[| |] |]; cbn; congruence.
Qed.

Lemma SFltb_nan_l (x : spec_float) : SFltb S754_nan x = false.
Proof. reflexivity. Qed.

Lemma SFltb_nan_r (x : spec_float) : SFltb x S754_nan = false.
Proof. now destruct x. Qed.

Lemma SFltb_trans (x y z : spec_float) :
  SFltb x y = true -> SFltb y z = true -> SFltb x z = true.
Proof.
  unfold SFltb.
  destruct x as [sx | sx | | sx mx ex], y as [sy | sy | | sy my ey],
           z as [sz | sz | | sz mz ez];
    cbn [SFcompare];
    try destruct sx; try destruct sy; try destruct sz;
    try discriminate; try reflexivity;
    change (Pos.compare_cont Eq) with Pos.compare;
    destruct (Z.compare_spec ex ey), (Z.compare_spec ey ez),
             (Z.compare_spec ex ez);
    try discriminate; try reflexivity; try lia;
    destruct (Pos.compare_spec mx my), (Pos.compare_spec my mz),
             (Pos.compare_spec mx mz);
    cbn [CompOpp]; try discriminate; try reflexivity; lia.
Qed.

Lemma outside_zero (b : FilterBase float64) (w : float64) :
  outside b w = true ->
  SFltb (wl_min b) w && SFltb w (wl_max b) = false.
Proof.
  unfold outside. intros H.
  apply Bool.orb_true_iff in H. destruct H as [H | H].
  - apply Bool.orb_true_iff in H. destruct H as [H | H].
    + now rewrite (SFleb_not_ltb _ _ H).
    + rewrite (SFleb_not_ltb _ _ H). apply Bool.andb_false_r.
  - destruct w; try discriminate H. now rewrite SFltb_nan_r.
Qed.

(** X8.  A boxcar filter excludes its edges: at every wavelength that is at
    or below [wl_min], at or above [wl_max], or NaN, the transmission is
    0. *)
Theorem boxcar_zero_outside (b : FilterBase float64) (wl : list float64) :
  forallb (outside b) wl = true ->
  call (BoxcarFilter b) wl = Ok (Values (map (fun _ => f_zero) wl)).
Proof.
  intros H. cbn [call]. do 2 f_equal.
  apply map_ext_in. intros w Hw.
  rewrite forallb_forall in H.
  change (@f_ltb float64 B64.scalar) with SFltb.
  now rewrite (outside_zero b w (H w Hw)).
Qed.

(** X8, at the edges of the g' passband and at NaN. *)
Lemma boxcar_zero_outside_witness :
  forallb (outside (base sdss_g)) [B64.of_Z 400; B64.of_Z 550; S754_nan]
  = true /\
  call sdss_g [B64.of_Z 400; B64.of_Z 550; S754_nan]
  = Ok (Values [f_zero; f_zero; f_zero]).
Proof.
  split; [reflexivity |].
  exact (boxcar_zero_outside (base sdss_g)
           [B64.of_Z 400; B64.of_Z 550; S754_nan] eq_refl).
Defined.

Lemma boxcar_transmits (b : FilterBase float64) (w : float64) :
  transmits (BoxcarFilter b) w ->
  SFltb (wl_min b) w = true /\ SFltb w (wl_max b) = true.
Proof.
  unfold transmits. cbn [call map].
  change (@f_ltb float64 B64.scalar) with SFltb.
  destruct (SFltb (wl_min b) w), (SFltb w (wl_max b)); cbn [andb];
    intros H; try (split; reflexivity); discriminate H.
Qed.

Lemma boxcar_disjoint (b1 b2 : FilterBase float64) (w : float64) :
  transmits (BoxcarFilter b1) w -> transmits (BoxcarFilter b2) w ->
  SFltb (wl_max b1) (wl_min b2) = true -> False.
Proof.
  intros H1 H2 Hgap.
  destruct (boxcar_transmits b1 w H1) as [_ Hhi].
  destruct (boxcar_transmits b2 w H2) as [Hlo _].
  pose proof (SFltb_trans _ _ _ (SFltb_trans _ _ _ Hhi Hgap) Hlo) as Hww.
  rewrite SFltb_irrefl in Hww. discriminate Hww.
Qed.

Lemma boxcar_blocks (b1 b2 : FilterBase float64) (w : float64) :
  transmits (BoxcarFilter b1) w ->
  SFltb (wl_max b1) (wl_min b2) = true \/
  SFltb (wl_max b2) (wl_min b1) = true ->
  call (BoxcarFilter b2) [w] = Ok (Values [f_zero]).
Proof.
  intros H1 Hgap. cbn [call map].
  change (@f_ltb float64 B64.scalar) with SFltb.
  destruct (SFltb (wl_min b2) w && SFltb w (wl_max b2)) eqn:E;
    [exfalso | reflexivity].
  assert (H2 : transmits (BoxcarFilter b2) w).
  { unfold transmits. cbn [call map].
    change (@f_ltb float64 B64.scalar) with SFltb. now rewrite E. }
  destruct Hgap as [Hgap | Hgap].
  - exact (boxcar_disjoint b1 b2 w H1 H2 Hgap).
  - exact (boxcar_disjoint b2 b1 w H2 H1 Hgap).
Qed.

(** X9.  The SDSS passbands g', r', i', z' do not overlap: at a wavelength
    where one of them has transmission 1, each of the other three has
    transmission 0. *)
Theorem sdss_passbands_disjoint (w : float64) (i j : nat)
    (f g : Filter float64) :
  nth_error sdss i = Some f -> nth_error sdss j = Some g -> i <> j ->
  transmits f w -> call g [w] = Ok (Values [f_zero]).
Proof.
  intros Hi Hj Hij Hf.
  destruct i as [| [| [| [| i]]]]; cbn in Hi; try (now destruct i);
    injection Hi as <-;
    (destruct j as [| [| [| [| j]]]]; cbn in Hj; try (now destruct j);
     injection Hj as <-);
    try (exfalso; apply Hij; reflexivity);
    apply (boxcar_blocks _ _ w Hf);
    first [ left; reflexivity | right; reflexivity ].
Qed.

(** X9, at 500 nm, which g' transmits and r' blocks. *)
Lemma sdss_passbands_disjoint_witness :
  nth_error sdss 0 = Some sdss_g /\
  nth_error sdss 1 = Some sdss_r /\
  0%nat <> 1%nat /\
  transmits sdss_g (B64.of_Z 500) /\
  call sdss_r [B64.of_Z 500] = Ok (Values [f_zero]).
Proof.
  split; [reflexivity |]. split; [reflexivity |].
  split; [discriminate |]. split; [reflexivity |].
  exact (sdss_passbands_disjoint (B64.of_Z 500) 0 1 sdss_g sdss_r
           eq_refl eq_refl (O_S 0) eq_refl).
Defined.

(** ** Sampling a boxcar filter, in exact arithmetic *)

Local Open Scope Qc_scope.










(** ** Construction of a tabulated filter, in exact arithmetic *)








Section TabulatedInit.
Context {F : Type} {SF : Scalar F}.
Variable interp : list F -> list F -> result (list F -> result (list F)).


End TabulatedInit.




Local Close Scope Qc_scope.

(** ** Batches of parameter vectors *)

Section Batches.
Context {F : Type} {SF : Scalar F}.

Lemma Forall2_nth_error {A B} (R : A -> B -> Prop) (l : list A)
    (l' : list B) (k : nat) (a : A) :
  Forall2 R l l' -> nth_error l k = Some a ->
  exists b, nth_error l' k = Some b /\ R a b.
Proof.
  intros H. revert k. induction H as [| x y l l' Hxy _ IH]; intros k Hk.
  - now destruct k.
  - destruct k as [| k]; cbn in Hk.
    + injection Hk as <-. now exists y.
    + exact (IH k Hk).
Qed.

(** X13.  The rows of a batch are evaluated independently: row [k] of
    [baseline(pvp)] for a 2-D [pvp] is the single row that [baseline]
    returns for the vector [pvp[k]] alone. *)
Theorem baseline_batch_rowwise (ts fl : list (list F)) (deg : Z)
    (reg : ParameterSet) (lb : LegendreBaseline F)
    (pvp fbl : list (list F)) (k : nat) (pv : list F) :
  setup ts fl deg reg = Ok lb ->
  baseline lb (Arr2 pvp) = Ok fbl ->
  nth_error pvp k = Some pv ->
  exists r, nth_error fbl k = Some r /\ baseline lb (Arr1 pv) = Ok [r].
Proof.
  intros Hsetup Hb Hk.
  destruct (setup_ready ts fl deg reg lb Hsetup) as (w & _ & _ & _ & Hready).
  rewrite (baseline_ready lb ts _ _ _ (Arr2 pvp) Hready) in Hb.
  rewrite (baseline_ready lb ts _ _ _ (Arr1 pv) Hready).
  cbn [atleast_2d] in *. apply mapM_inv in Hb.
  destruct (Forall2_nth_error _ _ _ k pv Hb Hk) as (r & Hr & Hrow).
  exists r. split; [exact Hr |]. cbn [mapM]. cbv beta in Hrow.
  now rewrite Hrow.
Qed.

End Batches.

Lemma demo_baseline_batch :
  baseline demo_lb (Arr2 [demo_pv1; demo_pv2]) = Ok [demo_r1; demo_r2].
Proof. vm_compute. reflexivity. Qed.

(** X13, at row 1 of a batch of two vectors. *)
Lemma baseline_batch_rowwise_witness :
  setup demo_times demo_fluxes 2 empty_ps = Ok demo_lb /\
  baseline demo_lb (Arr2 [demo_pv1; demo_pv2]) = Ok [demo_r1; demo_r2] /\
  nth_error [demo_pv1; demo_pv2] 1 = Some demo_pv2 /\
  exists r,
    nth_error [demo_r1; demo_r2] 1 = Some r /\
    baseline demo_lb (Arr1 demo_pv2) = Ok [r].
Proof.
  split; [exact demo_setup |]. split; [exact demo_baseline_batch |].
  split; [reflexivity |].
  exact (baseline_batch_rowwise demo_times demo_fluxes 2 empty_ps demo_lb
           [demo_pv1; demo_pv2] [demo_r1; demo_r2] 1 demo_pv2
           demo_setup demo_baseline_batch eq_refl).
Defined.

(** ** A light curve with an intercept only, in exact arithmetic *)

Local Open Scope Qc_scope.






Local Close Scope Qc_scope.
